(** * Chain-head index of py-helios-node: [evm/db/chain_head.py]

    A shallow embedding of the class [ChainHeadDB] and of the Python
    operations it relies on, followed by the properties of the
    specification that were checked against it.

    Conventions of the embedding.

    - The key-value store [self.db] is a record with one field per key
      family of [SchemaV1]; a handle is a separate record, and every method
      is a state transformer over the store, so that several handles opened
      on the same store share it, as in the source.
    - An exception does not undo the writes made before it: a method
      returns the store it reached together with either a value or the
      exception raised.
    - [rlp.encode], [rlp.decode], [int_to_big_endian] and
      [big_endian_to_int] are library code; they are inverse to one another
      on the non-negative integers written here, so the stored windows and
      timestamps are held as the integers they encode.
    - Python's [/] on integers yields a [float], and the source relies on
      the difference between [int] and [float] values; numbers therefore
      carry their dynamic type, and a float is held as the rational it
      denotes.  The quotient [timestamp / W] of
      [add_block_hash_to_chronological_window] divides an argument that only
      [validate_uint256] bounds: it is rounded to binary64 as CPython rounds
      the quotient of two integers (to nearest, ties to even,
      [OverflowError] beyond the largest double).  The other quotients
      divide the clock reading, or the distance between the clock and a
      stored window; they are kept exact.
    - The wall clock [time.time()] is a parameter of every operation. *)

From Stdlib Require Import ZArith QArith Qround Lia.
From Stdlib Require Strings.Byte.
From stdpp Require Import base option list sorting gmap.

#[local] Open Scope Z_scope.

(** ** Byte strings *)

Abbreviation byte := Byte.byte.
Definition bytes : Type := list byte.

#[global] Instance byte_eq_dec : EqDecision byte := Byte.byte_eq_dec.
#[global] Instance byte_countable : Countable byte :=
  inj_countable Byte.to_N Byte.of_N Byte.of_to_N.

(** ** Python values and built-ins used by the module *)

Inductive exn : Type :=
| ValidationError
| InvalidHeadRootTimestamp
| TypeError
| IndexError
| ZeroDivisionError
| OverflowError
| MissingTrieNode.

#[global] Instance exn_eq_dec : EqDecision exn.
Proof. solve_decision. Defined.

Inductive result (A : Type) : Type :=
| Ok (a : A)
| Raise (e : exn).
Arguments Ok {A} a.
Arguments Raise {A} e.

(** A number together with its dynamic type. *)
Inductive pynum : Type :=
| PyInt (z : Z)
| PyFloat (q : Q).

Definition to_Q (n : pynum) : Q :=
  match n with PyInt z => inject_Z z | PyFloat q => q end.

(** [a / b]: true division, always a float; the quotient is kept exact. *)
Definition py_truediv (a b : pynum) : pynum := PyFloat (to_Q a / to_Q b).

(** [floor(log2(n / d))] for positive [n] and [d]. *)
Definition floor_log2 (n d : Z) : Z :=
  let l := Z.log2 n - Z.log2 d in
  if (if 0 <=? l then d * 2 ^ l <=? n else d <=? n * 2 ^ (- l))
  then l else l - 1.

(** The integer nearest to [n / d] for [0 <= n] and [0 < d]; halfway
    between two integers, the even one. *)
Definition round_half_even (n d : Z) : Z :=
  let f := n / d in
  match 2 * (n mod d) ?= d with
  | Lt => f
  | Gt => f + 1
  | Eq => if Z.even f then f else f + 1
  end.

(** The binary64 value nearest to [n / d] for [0 <= n] and [0 < d]: a
    significand of 53 bits on the exponent of the quotient, not below the
    exponent [-1074] of the subnormal numbers; [None] when the rounded
    value reaches [2^1024]. *)
Definition binary64 (n d : Z) : option Q :=
  if n =? 0 then Some 0%Q
  else
    let e := Z.max (floor_log2 n d - 52) (-1074) in
    if 0 <? e then
      let m := round_half_even n (d * 2 ^ e) in
      if 2 ^ 1024 <=? m * 2 ^ e then None else Some (inject_Z (m * 2 ^ e))
    else
      let p := 2 ^ (- e) in
      let m := round_half_even (n * p) d in
      if 2 ^ 1024 * p <=? m then None else Some (m # Z.to_pos p).

(** [a / b] on two [int] operands as the interpreter computes it: the
    correctly rounded binary64 quotient, [ZeroDivisionError] on a zero
    divisor and [OverflowError] when the quotient is too large for a
    float. *)
Definition py_truediv_int (a b : Z) : result pynum :=
  if b =? 0 then Raise ZeroDivisionError
  else
    match binary64 (Z.abs a) (Z.abs b) with
    | None => Raise OverflowError
    | Some q => Ok (PyFloat (if Bool.eqb (a <? 0) (b <? 0) then q else - q))
    end.

(** [a + b]: an int only when both operands are. *)
Definition py_add (a b : pynum) : pynum :=
  match a, b with
  | PyInt x, PyInt y => PyInt (x + y)
  | _, _ => PyFloat (to_Q a + to_Q b)
  end.

(** [int(x)]: truncation toward zero. *)
Definition Qtrunc (q : Q) : Z :=
  if Qle_bool 0 q then Qfloor q else Qceiling q.

Definition py_int (n : pynum) : Z :=
  match n with PyInt z => z | PyFloat q => Qtrunc q end.

(** [range(start, stop)] over integers. *)
Definition range (start stop : Z) : list Z :=
  map (fun i => start + Z.of_nat i) (seq 0 (Z.to_nat (stop - start))).

(** [range(start, stop)] as the interpreter applies it: a float argument
    is refused with [TypeError]. *)
Definition py_range (start stop : pynum) : result (list Z) :=
  match start, stop with
  | PyInt a, PyInt b => Ok (range a b)
  | _, _ => Raise TypeError
  end.

(** [range(start, stop, step)] for a positive [step]. *)
Definition range_step (start stop step : Z) : list Z :=
  map (fun i => start + step * Z.of_nat i)
      (seq 0 (Z.to_nat ((stop - start + step - 1) / step))).

(** [l[i]] with Python's negative indices. *)
Definition py_getitem {A} (l : list A) (i : Z) : result A :=
  let n := Z.of_nat (length l) in
  let j := if i <? 0 then i + n else i in
  if (j <? 0) || (n <=? j) then Raise IndexError
  else match l !! Z.to_nat j with
       | Some x => Ok x
       | None => Raise IndexError
       end.

(** [l[i] = x] with Python's negative indices. *)
Definition py_setitem {A} (l : list A) (i : Z) (x : A) : result (list A) :=
  let n := Z.of_nat (length l) in
  let j := if i <? 0 then i + n else i in
  if (j <? 0) || (n <=? j) then Raise IndexError
  else Ok (<[Z.to_nat j := x]> l).

(** [dict(l)] for a list of pairs: a later pair replaces an earlier one
    with the same key. *)
Definition py_dict {K V} `{Countable K} (l : list (K * V)) : gmap K V :=
  list_to_map (reverse l).

(** [l.insert(i, x)] for [0 <= i]. *)
Definition py_insert {A} (i : nat) (x : A) (l : list A) : list A :=
  take i l ++ x :: drop i l.

(** [del l[:stop]]: a negative [stop] counts from the end. *)
Definition py_del_prefix {A} (stop : Z) (l : list A) : list A :=
  let n := Z.of_nat (length l) in
  let k := if stop <? 0 then Z.max 0 (stop + n) else Z.min stop n in
  drop (Z.to_nat k) l.

(** ** Validators of [evm.validation] *)

(** Modelled from the spec: [evm/validation.py] is not part of the sources;
    section 7 gives [InvalidAddress] as "not 20 bytes" and [InvalidUint256]
    as "integer out of range [0, 2^256)".  A refused argument is reported
    as [ValidationError]. *)
Definition validate_canonical_address (address : bytes) : result unit :=
  if decide (length address = 20%nat) then Ok tt else Raise ValidationError.

Definition UINT_256_MAX : Z := 2 ^ 256 - 1.

Definition validate_uint256 (value : Z) : result unit :=
  if (0 <=? value) && (value <=? UINT_256_MAX) then Ok tt
  else Raise ValidationError.

(** The head hash is a byte string by its type. *)
Definition validate_is_bytes (value : bytes) : result unit := Ok tt.

(** ** Values of the scenarios of section 8 *)

Definition address_A : bytes :=
  [Byte.x01; Byte.x02; Byte.x03; Byte.x04; Byte.x05; Byte.x06; Byte.x07;
   Byte.x08; Byte.x09; Byte.x0a; Byte.x0b; Byte.x0c; Byte.x0d; Byte.x0e;
   Byte.x0f; Byte.x10; Byte.x11; Byte.x12; Byte.x13; Byte.x14].

Definition address_B : bytes := replicate 20 Byte.x0b.

Definition hash_H1 : bytes := replicate 32 Byte.xaa.

Definition hash_H2 : bytes := replicate 32 Byte.xbb.

(** ** The store, the handle and the method monad *)

Section ChainHead.

(** Root hashes.  [root_of] is the hash with which the binary trie
    addresses its contents; like keccak it is taken to be free of
    collisions. *)
Context {Root : Type} `{Countable Root}.
Variable root_of : gmap bytes bytes -> Root.
Hypothesis root_of_inj : Inj (=) (=) root_of.

(** Constants of [evm.constants].  The window length is positive, so
    that dividing by it never raises; the statements below say so where
    they depend on it. *)
Variable TIME_BETWEEN_HEAD_HASH_SAVE : Z.
Variable NUMBER_OF_HEAD_HASH_TO_SAVE : Z.

(** [trie.constants.BLANK_HASH]: the root of the empty trie. *)
Definition BLANK_HASH : Root := root_of ∅.

(** The database [self.db], one field per family of keys:
    trie nodes (here a whole snapshot under its root),
    [make_current_head_root_lookup_key],
    [make_historical_head_root_lookup_key] and
    [make_chronological_window_lookup_key(timestamp)]. *)
Record Store : Type := mkStore {
  trie_nodes : gmap Root (gmap bytes bytes);
  current_head_root : option Root;
  historical_head_roots : option (list (Z * Root));
  chronological_windows : gmap Z (list (Z * bytes));
}.

(** A [ChainHeadDB] object without its [db] field: the root of [_trie],
    the pending writes of [_batchtrie] and the entries of [_trie_cache]. *)
Record ChainHeadDB : Type := mkChainHeadDB {
  root_hash : Root;
  batch : gmap Root (gmap bytes bytes);
  cache : gmap bytes bytes;
}.

(** A method body: it runs on the store and leaves a store and either a
    value or an exception. *)
Definition M (A : Type) : Type := Store -> Store * result A.

#[local] Instance M_ret : MRet M := fun A a db => (db, Ok a).
#[local] Instance M_bind : MBind M := fun A B f m db =>
  match m db with
  | (db', Ok a) => f a db'
  | (db', Raise e) => (db', Raise e)
  end.

Definition raise {A} (e : exn) : M A := fun db => (db, Raise e).

Definition lift {A} (r : result A) : M A := fun db => (db, r).

Definition read_db : M Store := fun db => (db, Ok db).

Definition write_db (f : Store -> Store) : M unit := fun db => (f db, Ok tt).

(** [for x in xs: acc = body(x, acc)]. *)
Fixpoint for_loop {A S} (xs : list A) (body : A -> S -> M S) (acc : S) : M S :=
  match xs with
  | [] => mret acc
  | x :: xs' => acc' ← body x acc; for_loop xs' body acc'
  end.

(** ** The trie stack under a handle *)

(** Modelled from the spec: [BinaryTrie], [HashTrie], [BatchDB] and
    [CacheDB] are not part of the sources.  Sections 4.1 and 4.2: the trie
    is a content-addressed map whose root identifies its contents, the root
    of the empty trie is [BLANK_HASH], [get] returns absent on a missing key
    and reading a missing node is fatal; the wrapper buffers node writes
    until [commit] and reads observe the buffered writes. *)
Definition trie_contents (self : ChainHeadDB) : M (gmap bytes bytes) :=
  if decide (root_hash self = BLANK_HASH) then mret ∅
  else match batch self !! root_hash self with
       | Some s => mret s
       | None =>
           db ← read_db;
           match trie_nodes db !! root_hash self with
           | Some s => mret s
           | None => raise MissingTrieNode
           end
       end.

(** Modelled from the spec: [CacheDB.get] (section 4.2, "a small
    read-through cache keyed by trie key"). *)
Definition trie_cache_get (self : ChainHeadDB) (key : bytes)
  : M (ChainHeadDB * option bytes) :=
  match cache self !! key with
  | Some v => mret (self, Some v)
  | None =>
      s ← trie_contents self;
      match s !! key with
      | Some v =>
          mret (mkChainHeadDB (root_hash self) (batch self)
                              (<[key := v]> (cache self)), Some v)
      | None => mret (self, None)
      end
  end.

(** Modelled from the spec: [CacheDB.__setitem__] over the batched trie
    (section 4.3, "updates the buffered trie; cache updated", and
    section 4.1, [put] "returns the root of the updated trie"). *)
Definition trie_cache_set (self : ChainHeadDB) (key value : bytes)
  : M ChainHeadDB :=
  s ← trie_contents self;
  let s' := <[key := value]> s in
  mret (mkChainHeadDB (root_of s')
                      (<[root_of s' := s']> (batch self))
                      (<[key := value]> (cache self))).

(** Modelled from the spec: [BatchDB.commit] (section 4.2, "a commit
    operation flushes them"). *)
Definition batch_commit (self : ChainHeadDB) : M ChainHeadDB :=
  write_db (fun db =>
    mkStore (batch self ∪ trie_nodes db) (current_head_root db)
            (historical_head_roots db) (chronological_windows db));;
  mret (mkChainHeadDB (root_hash self) ∅ (cache self)).

(** ** [ChainHeadDB] *)

(** [ChainHeadDB(db, root_hash)]. *)
Definition new_ChainHeadDB (root : Root) : ChainHeadDB :=
  mkChainHeadDB root ∅ ∅.

Definition set_chain_head_hash (self : ChainHeadDB) (address head_hash : bytes)
  : M ChainHeadDB :=
  lift (validate_canonical_address address);;
  lift (validate_is_bytes head_hash);;
  trie_cache_set self address head_hash.

Definition get_chain_head_hash (self : ChainHeadDB) (address : bytes)
  : M (ChainHeadDB * option bytes) :=
  lift (validate_canonical_address address);;
  trie_cache_get self address.

(** *** Historical root hashes *)

Definition save_historical_root_hashes (root_hashes : list (Z * Root)) : M unit :=
  write_db (fun db =>
    mkStore (trie_nodes db) (current_head_root db)
            (Some root_hashes) (chronological_windows db)).

Definition get_historical_root_hashes : M (option (list (Z * Root))) :=
  db ← read_db; mret (historical_head_roots db).

Definition get_latest_timestamp : M Z :=
  historical ← get_historical_root_hashes;
  match historical with
  | None => mret 0
  | Some historical =>
      last ← lift (py_getitem historical (-1));
      mret (last.1)
  end.

(** *** Chronological windows *)

Definition save_chronological_block_window
    (data : list (Z * bytes)) (timestamp : Z) : M unit :=
  lift (validate_uint256 timestamp);;
  if negb (timestamp mod TIME_BETWEEN_HEAD_HASH_SAVE =? 0)
  then raise InvalidHeadRootTimestamp
  else
    write_db (fun db =>
      mkStore (trie_nodes db) (current_head_root db) (historical_head_roots db)
              (<[timestamp := data]> (chronological_windows db))).

Definition load_chronological_block_window (timestamp : Z)
  : M (option (list (Z * bytes))) :=
  lift (validate_uint256 timestamp);;
  if negb (timestamp mod TIME_BETWEEN_HEAD_HASH_SAVE =? 0)
  then raise InvalidHeadRootTimestamp
  else
    db ← read_db; mret (chronological_windows db !! timestamp).

Definition delete_chronological_block_window (timestamp : Z) : M unit :=
  lift (validate_uint256 timestamp);;
  if negb (timestamp mod TIME_BETWEEN_HEAD_HASH_SAVE =? 0)
  then raise InvalidHeadRootTimestamp
  else
    write_db (fun db =>
      mkStore (trie_nodes db) (current_head_root db) (historical_head_roots db)
              (delete timestamp (chronological_windows db))).

(** The backward scan [for i in range(len(data)-1, -1, -1)] of
    [add_block_hash_to_chronological_window]: it looks at the indices
    [n-1], ..., [0] and gives the position [i+1] of the insertion, or
    [None] when the loop ends with [inserted = False]. *)
Fixpoint scan_back (data : list (Z * bytes)) (timestamp : Z) (n : nat)
  : option nat :=
  match n with
  | O => None
  | S i =>
      match data !! i with
      | Some entry =>
          if entry.1 <=? timestamp then Some (S i)
          else scan_back data timestamp i
      | None => None
      end
  end.

Definition add_block_hash_to_chronological_window
    (time_time : Q) (self : ChainHeadDB) (head_hash : bytes) (timestamp : Z)
  : M unit :=
  lift (validate_is_bytes head_hash);;
  lift (validate_uint256 timestamp);;
  if timestamp >? py_int (PyFloat time_time)
                  - NUMBER_OF_HEAD_HASH_TO_SAVE * TIME_BETWEEN_HEAD_HASH_SAVE
  then
    quotient ← lift (py_truediv_int timestamp TIME_BETWEEN_HEAD_HASH_SAVE);
    let window_for_this_block :=
      py_int quotient * TIME_BETWEEN_HEAD_HASH_SAVE in
    data ← load_chronological_block_window window_for_this_block;
    let new_data :=
      match data with
      | None => [(timestamp, head_hash)]
      | Some data =>
          match scan_back data timestamp (length data) with
          | Some pos => py_insert pos (timestamp, head_hash) data
          | None => py_insert 0 (timestamp, head_hash) data
          end
      end in
    save_chronological_block_window new_data window_for_this_block
  else mret tt.

(** *** Promotion of the current root into the historical list *)

Definition append_current_root_hash_to_historical
    (time_time : Q) (self : ChainHeadDB) : M unit :=
  historical_roots ← get_historical_root_hashes;
  let last_finished_window :=
    py_int (py_truediv (PyFloat time_time) (PyInt TIME_BETWEEN_HEAD_HASH_SAVE))
    * TIME_BETWEEN_HEAD_HASH_SAVE in
  let current_window := last_finished_window + TIME_BETWEEN_HEAD_HASH_SAVE in
  match historical_roots with
  | None =>
      save_historical_root_hashes [(current_window, root_hash self)]
  | Some historical_roots =>
      first ← lift (py_getitem historical_roots 0);
      let initial_first_time := first.1 in
      last ← lift (py_getitem historical_roots (-1));
      let latest_time := last.1 in
      if latest_time >? last_finished_window then
        historical_roots ←
          lift (py_setitem historical_roots (-1) (last.1, root_hash self));
        save_historical_root_hashes historical_roots
      else
        final_first_time ←
          (if latest_time <? py_int (PyFloat time_time)
                - NUMBER_OF_HEAD_HASH_TO_SAVE * TIME_BETWEEN_HEAD_HASH_SAVE
           then
             let start_time :=
               py_int (PyFloat time_time)
               - NUMBER_OF_HEAD_HASH_TO_SAVE * TIME_BETWEEN_HEAD_HASH_SAVE in
             new_historical_roots ←
               for_loop (range 0 NUMBER_OF_HEAD_HASH_TO_SAVE)
                 (fun i new_historical_roots =>
                    last ← lift (py_getitem historical_roots (-1));
                    mret (new_historical_roots
                            ++ [(start_time + TIME_BETWEEN_HEAD_HASH_SAVE * i,
                                 last.2)]))
                 [];
             let new_historical_roots :=
               new_historical_roots ++ [(current_window, root_hash self)] in
             save_historical_root_hashes new_historical_roots;;
             first ← lift (py_getitem new_historical_roots 0);
             mret (first.1)
           else
             let num_increments_needed :=
               py_int (py_truediv (PyInt (last_finished_window - latest_time))
                                  (PyInt TIME_BETWEEN_HEAD_HASH_SAVE)) in
             historical_roots ←
               for_loop (range 0 num_increments_needed)
                 (fun i historical_roots =>
                    last ← lift (py_getitem historical_roots (-1));
                    mret (historical_roots
                            ++ [(latest_time
                                 + TIME_BETWEEN_HEAD_HASH_SAVE * (i + 1),
                                 last.2)]))
                 historical_roots;
             let historical_roots :=
               historical_roots ++ [(current_window, root_hash self)] in
             let historical_roots :=
               py_del_prefix (-1 * NUMBER_OF_HEAD_HASH_TO_SAVE)
                             historical_roots in
             save_historical_root_hashes historical_roots;;
             first ← lift (py_getitem historical_roots 0);
             mret (first.1));
        for_loop
          (range_step initial_first_time final_first_time
                      TIME_BETWEEN_HEAD_HASH_SAVE)
          (fun i _ => delete_chronological_block_window i) tt
  end.

(** *** Record, save and load *)

Definition save_current_root_hash (time_time : Q) (self : ChainHeadDB) : M unit :=
  write_db (fun db =>
    mkStore (trie_nodes db) (Some (root_hash self))
            (historical_head_roots db) (chronological_windows db));;
  append_current_root_hash_to_historical time_time self.

Definition persist (time_time : Q) (self : ChainHeadDB) (save_current : bool)
  : M ChainHeadDB :=
  self ← batch_commit self;
  if save_current
  then save_current_root_hash time_time self;; mret self
  else mret self.

Definition load_from_saved_root_hash : M ChainHeadDB :=
  db ← read_db;
  match current_head_root db with
  | Some loaded_root_hash => mret (new_ChainHeadDB loaded_root_hash)
  | None => mret (new_ChainHeadDB BLANK_HASH)
  end.

(** *** Heads at a past timestamp *)

Definition get_chain_head_hash_at_timestamp
    (time_time : Q) (self : ChainHeadDB) (address : bytes) (timestamp : Z)
  : M (option bytes) :=
  lift (validate_canonical_address address);;
  lift (validate_uint256 timestamp);;
  if timestamp >? py_int (PyFloat time_time) then raise InvalidHeadRootTimestamp
  else if negb (timestamp mod TIME_BETWEEN_HEAD_HASH_SAVE =? 0)
  then raise InvalidHeadRootTimestamp
  else
    historical_roots ← get_historical_root_hashes;
    match historical_roots with
    | None => mret None
    | Some historical_roots =>
        first ← lift (py_getitem historical_roots 0);
        if timestamp <? first.1 then mret None
        else
          historical_root ←
            match py_dict historical_roots !! timestamp with
            | Some r => mret r
            | None =>
                last ← lift (py_getitem historical_roots (-1));
                mret (last.2)
            end;
          let new_chain_head_db := new_ChainHeadDB historical_root in
          r ← trie_cache_get new_chain_head_db address;
          mret (r.2)
    end.

(** The loop of [add_block_hash_to_timestamp] over the indices it was
    given: each entry's snapshot is opened, the head written and persisted,
    and the entry's root replaced. *)
Definition rewrite_historical_roots
    (time_time : Q) (address head_hash : bytes)
    (indices : list Z) (historical_roots : list (Z * Root))
  : M (list (Z * Root)) :=
  for_loop indices
    (fun i historical_roots =>
       entry ← lift (py_getitem historical_roots i);
       let root_hash_to_load := entry.2 in
       let new_blockchain_head_db := new_ChainHeadDB root_hash_to_load in
       new_blockchain_head_db ←
         set_chain_head_hash new_blockchain_head_db address head_hash;
       new_blockchain_head_db ← persist time_time new_blockchain_head_db false;
       let new_root_hash := root_hash new_blockchain_head_db in
       lift (py_setitem historical_roots i (entry.1, new_root_hash)))
    historical_roots.

Definition add_block_hash_to_timestamp
    (time_time : Q) (self : ChainHeadDB) (address head_hash : bytes)
    (timestamp : Z) : M unit :=
  lift (validate_canonical_address address);;
  lift (validate_is_bytes head_hash);;
  lift (validate_uint256 timestamp);;
  if timestamp >? py_int (PyFloat time_time) then raise InvalidHeadRootTimestamp
  else if negb (timestamp mod TIME_BETWEEN_HEAD_HASH_SAVE =? 0)
  then raise InvalidHeadRootTimestamp
  else
    append_current_root_hash_to_historical time_time self;;
    historical_roots ← get_historical_root_hashes;
    match historical_roots with
    | None => raise TypeError
    | Some historical_roots =>
        first ← lift (py_getitem historical_roots 0);
        let start_timestamp :=
          if timestamp <? first.1 then first.1 else timestamp in
        let last_finished_window :=
          py_int (py_truediv (PyFloat time_time)
                             (PyInt TIME_BETWEEN_HEAD_HASH_SAVE))
          * TIME_BETWEEN_HEAD_HASH_SAVE in
        let num_increments :=
          py_int (py_add
                    (py_truediv (PyInt (last_finished_window - start_timestamp))
                                (PyInt TIME_BETWEEN_HEAD_HASH_SAVE))
                    (PyInt 1)) in
        let starting_index :=
          py_truediv (PyInt (timestamp - first.1))
                     (PyInt TIME_BETWEEN_HEAD_HASH_SAVE) in
        indices ← lift (py_range starting_index (PyInt num_increments));
        historical_roots ←
          rewrite_historical_roots time_time address head_hash
                                   indices historical_roots;
        save_historical_root_hashes historical_roots
    end.

(** [int(time.time())], and the two windows every method derives from
    the clock. *)
Definition now (time_time : Q) : Z := py_int (PyFloat time_time).

Definition last_finished (time_time : Q) : Z :=
  now time_time / TIME_BETWEEN_HEAD_HASH_SAVE * TIME_BETWEEN_HEAD_HASH_SAVE.

(** A chronological window in ascending order of timestamps. *)
Definition sorted_by_timestamp (data : list (Z * bytes)) : Prop :=
  StronglySorted (fun a b => a.1 <= b.1) data.

(** The store after [save_chronological_block_window(data, window)]. *)
Definition with_chronological_window
    (window : Z) (data : list (Z * bytes)) (db : Store) : Store :=
  mkStore (trie_nodes db) (current_head_root db) (historical_head_roots db)
          (<[window := data]> (chronological_windows db)).

(** Opening a handle on the snapshot at [root] and reading the head of
    [address] through it. *)
Definition head_in_snapshot (root : Root) (address : bytes) : M (option bytes) :=
  r ← get_chain_head_hash (new_ChainHeadDB root) address; mret (r.2).

(** A method that leaves the trie nodes and the saved current root of the
    store as they were, whatever it returns. *)
Definition keeps_tries {A} (m : M A) : Prop :=
  forall db, trie_nodes (m db).1 = trie_nodes db /\
             current_head_root (m db).1 = current_head_root db.

(** A method that leaves the stored historical list as it was. *)
Definition keeps_ring {A} (m : M A) : Prop :=
  forall db, historical_head_roots (m db).1 = historical_head_roots db.

(** The entries [append_current_root_hash_to_historical] adds for the
    windows that elapsed between [latest_time] and the last finished
    window, each with the root [root]. *)
Definition synthetic_entries
    (time_time : Q) (latest_time : Z) (root : Root) : list (Z * Root) :=
  map (fun i => (latest_time + TIME_BETWEEN_HEAD_HASH_SAVE * (i + 1), root))
      (range 0 ((last_finished time_time - latest_time)
                / TIME_BETWEEN_HEAD_HASH_SAVE)).

(** The store with the historical list replaced, as left by
    [save_historical_root_hashes]. *)
Definition with_historical_roots
    (root_hashes : list (Z * Root)) (db : Store) : Store :=
  mkStore (trie_nodes db) (current_head_root db) (Some root_hashes)
          (chronological_windows db).

(** The end of [append_current_root_hash_to_historical] in its last two
    branches, after the list [ring] was saved: the chronological windows
    from the former first window up to the new one are deleted. *)
Definition delete_dropped_windows
    (initial_first_time : Z) (ring : list (Z * Root)) : M unit :=
  final_first_time ← (first ← lift (py_getitem ring 0); mret (first.1));
  for_loop (range_step initial_first_time final_first_time
                       TIME_BETWEEN_HEAD_HASH_SAVE)
    (fun i _ => delete_chronological_block_window i) tt.

(** The invariant of the historical list (section 3 and property 3 of
    section 8): windows strictly increasing, consecutive windows one
    window length apart, at most [NUMBER_OF_HEAD_HASH_TO_SAVE + 1] entries. *)
Fixpoint windows_increasing (ring : list (Z * Root)) : bool :=
  match ring with
  | a :: (b :: _) as tl => (a.1 <? b.1) && windows_increasing tl
  | _ => true
  end.

Fixpoint windows_spaced (ring : list (Z * Root)) : bool :=
  match ring with
  | a :: (b :: _) as tl =>
      (b.1 - a.1 =? TIME_BETWEEN_HEAD_HASH_SAVE) && windows_spaced tl
  | _ => true
  end.

Definition ring_invariant (ring : list (Z * Root)) : bool :=
  windows_increasing ring && windows_spaced ring
  && (Z.of_nat (length ring) <=? NUMBER_OF_HEAD_HASH_TO_SAVE + 1).

(** The windows [w0], [w0 + W], ... of [n] consecutive entries. *)
Fixpoint progression (w0 : Z) (n : nat) : list Z :=
  match n with
  | O => []
  | S n' => w0 :: progression (w0 + TIME_BETWEEN_HEAD_HASH_SAVE) n'
  end.

(** The chronological index as its writer keeps it: every stored
    window is aligned, sorted by timestamp, and holds only timestamps of
    that window. *)
Definition chronological_index_wf (db : Store) : Prop :=
  map_Forall
    (fun w data =>
       w mod TIME_BETWEEN_HEAD_HASH_SAVE = 0 /\
       sorted_by_timestamp data /\
       Forall (fun e => w <= e.1 < w + TIME_BETWEEN_HEAD_HASH_SAVE) data)
    (chronological_windows db).

(** * Properties *)


(** ** Facts about the built-ins *)

Lemma Qtrunc_div_pos (t : Q) (b : Z) :
  (0 <= t)%Q -> 0 < b -> Qtrunc (t / inject_Z b) = Qfloor t / b.
Proof.
  intros Ht Hb. destruct t as [n d]. destruct b as [|p|p]; try lia.
  unfold Qle in Ht. simpl in Ht.
  unfold Qtrunc, Qdiv, Qinv, Qmult, Qle_bool, Qfloor, inject_Z. simpl.
  rewrite !Z.mul_1_r, Z.mul_0_l.
  destruct (0 <=? n) eqn:E; [| lia].
  rewrite Pos2Z.inj_mul, Z.div_div by lia. reflexivity.
Qed.

Lemma Qfloor_inject (z : Z) : Qfloor (inject_Z z) = z.
Proof. unfold Qfloor, inject_Z. apply Z.div_1_r. Qed.

Lemma Qtrunc_nonneg (t : Q) : (0 <= t)%Q -> Qtrunc t = Qfloor t.
Proof.
  intros Ht. unfold Qtrunc.
  destruct (Qle_bool 0 t) eqn:E; [reflexivity |].
  apply Qle_bool_iff in Ht. congruence.
Qed.

(** [int(a / b)] on non-negative integers, the quotient being kept exact,
    is the floor quotient. *)
Lemma py_int_truediv (a b : Z) :
  0 <= a -> 0 < b -> py_int (py_truediv (PyInt a) (PyInt b)) = a / b.
Proof.
  intros Ha Hb. unfold py_int, py_truediv, to_Q.
  rewrite Qtrunc_div_pos, Qfloor_inject; [reflexivity | | lia].
  unfold Qle, inject_Z. simpl. lia.
Qed.

(** [int(time.time() / b)] is the floor quotient of [int(time.time())]. *)
Lemma py_int_truediv_float (t : Q) (b : Z) :
  (0 <= t)%Q -> 0 < b ->
  py_int (py_truediv (PyFloat t) (PyInt b)) = py_int (PyFloat t) / b.
Proof.
  intros Ht Hb. unfold py_int, py_truediv, to_Q.
  rewrite Qtrunc_div_pos, Qtrunc_nonneg by assumption. reflexivity.
Qed.

Lemma floor_log2_le (n d : Z) :
  0 < n -> 0 < d ->
  (0 <= floor_log2 n d -> d * 2 ^ floor_log2 n d <= n) /\
  (floor_log2 n d < 0 -> d <= n * 2 ^ (- floor_log2 n d)).
Proof.
  intros Hn Hd. unfold floor_log2.
  set (l := Z.log2 n - Z.log2 d).
  destruct (Z.log2_spec n Hn) as [Hn1 _].
  destruct (Z.log2_spec d Hd) as [_ Hd2].
  pose proof (Z.log2_nonneg n) as Hln.
  pose proof (Z.log2_nonneg d) as Hld.
  destruct (if 0 <=? l then d * 2 ^ l <=? n else d <=? n * 2 ^ (- l)) eqn:Et.
  - destruct (0 <=? l) eqn:El.
    + apply Z.leb_le in El, Et. split; [intros _; exact Et | lia].
    + apply Z.leb_gt in El. apply Z.leb_le in Et.
      split; [lia | intros _; exact Et].
  - clear Et. split.
    + intros Hl.
      assert (2 ^ Z.log2 n = 2 ^ Z.succ (Z.log2 d) * 2 ^ (l - 1)) as Hp.
      { rewrite <- Z.pow_add_r by lia. f_equal. unfold l. lia. }
      assert (0 < 2 ^ (l - 1)) by (apply Z.pow_pos_nonneg; lia).
      nia.
    + intros Hl.
      assert (2 ^ Z.succ (Z.log2 d) = 2 ^ Z.log2 n * 2 ^ (- (l - 1))) as Hp.
      { rewrite <- Z.pow_add_r by lia. f_equal. unfold l. lia. }
      assert (0 < 2 ^ (- (l - 1))) by (apply Z.pow_pos_nonneg; lia).
      nia.
Qed.

Lemma round_half_even_spec (n d : Z) :
  0 < d ->
  n / d <= round_half_even n d <= n / d + 1 /\
  (round_half_even n d = n / d + 1 -> d <= 2 * (n mod d)).
Proof.
  intros Hd. unfold round_half_even.
  destruct (2 * (n mod d) ?= d) eqn:E.
  - apply Z.compare_eq in E. destruct (Z.even (n / d)); lia.
  - lia.
  - apply Z.compare_gt_iff in E. lia.
Qed.

(** For [a + b <= 2^53] the rounded quotient of [a] by [b] stays below
    the integer after [a / b]: the distance [1 / b] of the quotient to that
    integer is more than half a unit in the last place. *)
Lemma binary64_floor (a b : Z) :
  0 <= a -> 0 < b -> a + b <= 2 ^ 53 ->
  exists q, binary64 a b = Some q /\ (0 <= q)%Q /\ Qfloor q = a / b.
Proof.
  intros Ha Hb Hsum. unfold binary64.
  destruct (a =? 0) eqn:E0.
  - apply Z.eqb_eq in E0. subst a. exists 0%Q.
    split; [reflexivity |]. split; [apply Qle_refl |].
    rewrite Z.div_0_l by lia. reflexivity.
  - apply Z.eqb_neq in E0.
    destruct (floor_log2_le a b ltac:(lia) Hb) as [Hpos Hneg].
    set (l := floor_log2 a b) in *.
    assert (l <= 52) as Hl.
    { destruct (Z_lt_le_dec l 0) as [|Hl0]; [lia |].
      specialize (Hpos Hl0).
      assert (2 ^ l < 2 ^ 53) as Hlt.
      { assert (0 < 2 ^ l) by (apply Z.pow_pos_nonneg; lia). nia. }
      apply Z.pow_lt_mono_r_iff in Hlt; lia. }
    set (e := Z.max (l - 52) (-1074)).
    assert (e <= 0) as He by (unfold e; lia).
    destruct (0 <? e) eqn:Ee; [apply Z.ltb_lt in Ee; lia |].
    set (p := 2 ^ (- e)).
    assert (0 < p) as Hp by (apply Z.pow_pos_nonneg; lia).
    assert (b < 2 * p) as Hbp.
    { destruct (Z_lt_le_dec l 0) as [Hl0|Hl0].
      - assert (2 ^ 53 <= p) as Hge.
        { apply Z.pow_le_mono_r; [lia |]. unfold e. lia. }
        lia.
      - specialize (Hpos Hl0).
        assert (- e = 52 - l) as Hen by (unfold e; lia).
        assert (2 ^ 53 = 2 * p * 2 ^ l) as Hpow.
        { unfold p. rewrite Hen.
          replace 53 with (1 + (52 - l) + l) by lia.
          rewrite !Z.pow_add_r by lia. reflexivity. }
        assert (0 < 2 ^ l) by (apply Z.pow_pos_nonneg; lia).
        nia. }
    destruct (round_half_even_spec (a * p) b Hb) as [[Hm1 Hm2] Hm3].
    set (m := round_half_even (a * p) b) in *.
    pose proof (Z.div_mod a b ltac:(lia)) as Hdiv.
    pose proof (Z.mod_pos_bound a b Hb) as Hmod.
    pose proof (Z.div_mod (a * p) b ltac:(lia)) as Hdiv'.
    pose proof (Z.mod_pos_bound (a * p) b Hb) as Hmod'.
    set (k := a / b) in *.
    set (f := a * p / b) in *.
    assert (0 <= k) as Hk by (apply Z.div_pos; lia).
    assert (k * p <= f) as Hlow.
    { apply Z.div_le_lower_bound; [lia |].
      replace (b * (k * p)) with (b * k * p) by ring.
      apply Z.mul_le_mono_nonneg_r; lia. }
    assert (a * p <= (k + 1) * p * b - p) as Hap.
    { replace ((k + 1) * p * b - p) with ((b * k + b - 1) * p) by ring.
      apply Z.mul_le_mono_nonneg_r; lia. }
    assert (m < (k + 1) * p) as Hup.
    { apply (Z.mul_lt_mono_pos_r b); [lia |].
      destruct (Z.eq_dec m (f + 1)) as [Hm|Hm].
      - specialize (Hm3 Hm). rewrite Hm.
        replace ((f + 1) * b) with (b * f + b) by ring. lia.
      - assert (m = f) as -> by lia.
        replace (f * b) with (b * f) by ring. lia. }
    assert (k + 1 <= 2 ^ 53) as Hk53.
    { assert (1 * k <= b * k) by (apply Z.mul_le_mono_nonneg_r; lia). lia. }
    destruct (2 ^ 1024 * p <=? m) eqn:Eo.
    { apply Z.leb_le in Eo.
      assert (2 ^ 53 <= 2 ^ 1024) as H1024 by (apply Z.pow_le_mono_r; lia).
      assert ((k + 1) * p <= 2 ^ 1024 * p)
        by (apply Z.mul_le_mono_nonneg_r; lia).
      lia. }
    exists (m # Z.to_pos p). split; [reflexivity |].
    split.
    + unfold Qle. simpl. lia.
    + unfold Qfloor. rewrite Z2Pos.id by lia.
      symmetry. apply (Z.div_unique m p k (m - k * p)); lia.
Qed.

(** [int(a / b)] on two integers with [a + b <= 2^53] is the floor
    quotient. *)
Lemma py_int_truediv_int (a b : Z) :
  0 <= a -> 0 < b -> a + b <= 2 ^ 53 ->
  exists q, py_truediv_int a b = Ok q /\ py_int q = a / b.
Proof.
  intros Ha Hb Hsum. unfold py_truediv_int.
  destruct (b =? 0) eqn:Eb; [apply Z.eqb_eq in Eb; lia |].
  rewrite (Z.abs_eq a), (Z.abs_eq b) by lia.
  destruct (binary64_floor a b Ha Hb Hsum) as (q & -> & Hq & Hfloor).
  destruct (a <? 0) eqn:Ea; [apply Z.ltb_lt in Ea; lia |].
  destruct (b <? 0) eqn:Eb'; [apply Z.ltb_lt in Eb'; lia |].
  eexists. split; [reflexivity |].
  simpl. rewrite Qtrunc_nonneg by assumption. exact Hfloor.
Qed.

(** Where the quotient is kept exact, [int(a / b)] is what the rounded
    quotient gives as long as [a + b <= 2^53]. *)
Lemma py_truediv_exact_below_2_53 (a b : Z) :
  0 <= a -> 0 < b -> a + b <= 2 ^ 53 ->
  exists q, py_truediv_int a b = Ok q /\
            py_int q = py_int (py_truediv (PyInt a) (PyInt b)).
Proof.
  intros Ha Hb Hsum.
  destruct (py_int_truediv_int a b Ha Hb Hsum) as (q & Hq & Hint).
  exists q. split; [exact Hq |].
  rewrite py_int_truediv by assumption. exact Hint.
Qed.

Lemma validate_uint256_ok (v : Z) :
  0 <= v <= UINT_256_MAX -> validate_uint256 v = Ok tt.
Proof.
  intros Hv. unfold validate_uint256.
  destruct (0 <=? v) eqn:E1; [| lia].
  destruct (v <=? UINT_256_MAX) eqn:E2; [reflexivity | lia].
Qed.

Lemma validate_canonical_address_ok (a : bytes) :
  length a = 20%nat -> validate_canonical_address a = Ok tt.
Proof.
  intros Ha. unfold validate_canonical_address.
  destruct (decide (length a = 20%nat)); [reflexivity | contradiction].
Qed.

Lemma floor_window_bounds (ts w : Z) :
  0 < w -> 0 <= ts -> 0 <= ts / w * w <= ts /\ (ts / w * w) mod w = 0.
Proof.
  intros Hw Hts. split.
  - pose proof (Z.mul_div_le ts w Hw). pose proof (Z.div_pos ts w Hts Hw). nia.
  - apply Z.mod_mul. lia.
Qed.

(** ** Properties of [ChainHeadDB] *)

#[local] Abbreviation W := TIME_BETWEEN_HEAD_HASH_SAVE.
#[local] Abbreviation HL := NUMBER_OF_HEAD_HASH_TO_SAVE.

(** C9: a timestamp at or below [now - HL * W] is ignored by
    [add_block_hash_to_chronological_window]: the call returns normally and
    the store is the one it started from. *)
Theorem chronological_too_old_is_noop
    (time_time : Q) (self : ChainHeadDB) (head_hash : bytes) (timestamp : Z)
    (db : Store) :
  0 <= timestamp <= UINT_256_MAX ->
  timestamp <= now time_time - HL * W ->
  add_block_hash_to_chronological_window time_time self head_hash
    timestamp db = (db, Ok tt).
Proof.
  intros Hu Hold. unfold add_block_hash_to_chronological_window, now in *.
  unfold mbind at 1. unfold M_bind, lift, validate_is_bytes.
  unfold mbind at 1. unfold M_bind.
  rewrite validate_uint256_ok by assumption.
  destruct (timestamp >? _) eqn:E; [lia | reflexivity].
Qed.

(** *** The chronological window index *)

Lemma scan_back_spec (data : list (Z * bytes)) (timestamp : Z) (n : nat) :
  (n <= length data)%nat ->
  match scan_back data timestamp n with
  | Some pos =>
      (0 < pos <= n)%nat /\
      (exists e, data !! pred pos = Some e /\ e.1 <= timestamp) /\
      (forall i e, (pos <= i < n)%nat -> data !! i = Some e -> timestamp < e.1)
  | None =>
      forall i e, (i < n)%nat -> data !! i = Some e -> timestamp < e.1
  end.
Proof.
  induction n as [|n IH]; intros Hn; simpl.
  - intros i e Hi. lia.
  - destruct (data !! n) as [entry|] eqn:En.
    + destruct (entry.1 <=? timestamp) eqn:Ecmp.
      * split; [lia |]. split; [exists entry; simpl; split; [assumption | lia] |].
        intros i e Hi. lia.
      * specialize (IH ltac:(lia)).
        destruct (scan_back data timestamp n) as [pos|].
        -- destruct IH as (Hpos & Hle & Hgt). split; [lia |]. split; [assumption |].
           intros i e Hi Hie. destruct (decide (i = n)) as [->|Hne].
           ++ rewrite En in Hie. injection Hie as <-. lia.
           ++ apply (Hgt i e); [lia | assumption].
        -- intros i e Hi Hie. destruct (decide (i = n)) as [->|Hne].
           ++ rewrite En in Hie. injection Hie as <-. lia.
           ++ apply (IH i e); [lia | assumption].
    + apply lookup_ge_None in En. lia.
Qed.

(** The list written back by [add_block_hash_to_chronological_window] when
    the window already holds [data]. *)
Lemma chronological_insert_split
    (data : list (Z * bytes)) (timestamp : Z) (head_hash : bytes) :
  exists before after,
    data = before ++ after /\
    (forall e, e ∈ after -> timestamp < e.1) /\
    (before = [] \/ exists e, last before = Some e /\ e.1 <= timestamp) /\
    match scan_back data timestamp (length data) with
    | Some pos => py_insert pos (timestamp, head_hash) data
    | None => py_insert 0 (timestamp, head_hash) data
    end = before ++ (timestamp, head_hash) :: after.
Proof.
  pose proof (scan_back_spec data timestamp (length data) (le_n _)) as Hs.
  destruct (scan_back data timestamp (length data)) as [pos|].
  - destruct Hs as (Hpos & (e & He & Hle) & Hgt).
    exists (take pos data), (drop pos data).
    split; [symmetry; apply take_drop |]. split; [| split; [| reflexivity]].
    + intros x Hx. apply list_elem_of_lookup in Hx as [i Hi].
      rewrite lookup_drop in Hi.
      apply (Hgt (pos + i)%nat x); [| assumption].
      apply lookup_lt_Some in Hi. lia.
    + right. exists e. split; [| assumption].
      rewrite last_lookup, length_take, lookup_take_lt by lia.
      replace (pred (pos `min` length data)) with (pred pos) by lia.
      assumption.
  - exists [], data. split; [reflexivity |]. split; [| split; [left; reflexivity |]].
    + intros x Hx. apply list_elem_of_lookup in Hx as [i Hi].
      apply (Hs i x); [| assumption]. apply lookup_lt_Some in Hi. assumption.
    + unfold py_insert. rewrite take_0, drop_0. reflexivity.
Qed.

Lemma sorted_insert_split
    (before after : list (Z * bytes)) (timestamp : Z) (head_hash : bytes) :
  (forall e, e ∈ after -> timestamp < e.1) ->
  (before = [] \/ exists e, last before = Some e /\ e.1 <= timestamp) ->
  sorted_by_timestamp (before ++ after) ->
  sorted_by_timestamp (before ++ (timestamp, head_hash) :: after).
Proof.
  unfold sorted_by_timestamp. intros Hafter Hbefore Hs.
  apply StronglySorted_app in Hs as (Hcross & Hs1 & Hs2).
  apply StronglySorted_app. split; [| split; [assumption |]].
  - intros x1 x2 Hx1 Hx2. apply elem_of_cons in Hx2 as [->|Hx2].
    + simpl. destruct Hbefore as [->|(e & Hlast & Hle)].
      * apply elem_of_nil in Hx1. contradiction.
      * apply last_Some in Hlast as [l' ->].
        apply elem_of_app in Hx1 as [Hx1|Hx1].
        -- apply StronglySorted_app in Hs1 as (Hc & _ & _).
           specialize (Hc x1 e Hx1 ltac:(apply list_elem_of_singleton; reflexivity)).
           simpl in Hc. lia.
        -- apply list_elem_of_singleton in Hx1 as ->. assumption.
    + apply Hcross; assumption.
  - apply StronglySorted_cons. split; [| assumption].
    apply Forall_forall. intros x Hx. specialize (Hafter x Hx). simpl. lia.
Qed.

Lemma below_2_53_is_uint256 (timestamp : Z) :
  0 < W -> 0 <= timestamp -> timestamp + W <= 2 ^ 53 ->
  0 <= timestamp <= UINT_256_MAX.
Proof.
  intros HW Hts Hsmall. split; [assumption |].
  assert (2 ^ 53 <= UINT_256_MAX) by (vm_compute; discriminate). lia.
Qed.

(** The call on a timestamp that is recent enough and small enough for the
    float quotient to be exact: the window it loads is [timestamp / W * W],
    and the list it writes back there. *)
Lemma chronological_insert_run
    (time_time : Q) (self : ChainHeadDB) (head_hash : bytes) (timestamp : Z)
    (db : Store) :
  0 < W ->
  0 <= timestamp -> timestamp + W <= 2 ^ 53 ->
  now time_time - HL * W < timestamp ->
  add_block_hash_to_chronological_window time_time self head_hash
    timestamp db =
  (with_chronological_window (timestamp / W * W)
     match chronological_windows db !! (timestamp / W * W) with
     | None => [(timestamp, head_hash)]
     | Some data =>
         match scan_back data timestamp (length data) with
         | Some pos => py_insert pos (timestamp, head_hash) data
         | None => py_insert 0 (timestamp, head_hash) data
         end
     end db, Ok tt).
Proof.
  intros HW Hts Hsmall Hrecent.
  pose proof (below_2_53_is_uint256 timestamp HW Hts Hsmall) as Hu.
  destruct (py_int_truediv_int timestamp W Hts HW Hsmall) as (q & Hq & Hint).
  unfold add_block_hash_to_chronological_window, now in *.
  unfold mbind at 1. unfold M_bind, lift, validate_is_bytes.
  unfold mbind at 1. unfold M_bind.
  rewrite validate_uint256_ok by assumption.
  destruct (timestamp >? _) eqn:E; [| lia].
  unfold mbind at 1. unfold M_bind. rewrite Hq, Hint.
  destruct (floor_window_bounds timestamp W HW ltac:(lia)) as [Hb Hm].
  unfold load_chronological_block_window, save_chronological_block_window.
  unfold mbind, M_bind, lift, read_db, write_db, mret, M_ret.
  rewrite validate_uint256_ok by lia.
  rewrite Hm. simpl. reflexivity.
Qed.

Lemma window_of_timestamp (timestamp w : Z) :
  0 < W -> w mod W = 0 -> w <= timestamp < w + W -> timestamp / W * W = w.
Proof.
  intros HW Hmod Hin. apply Z.div_exact in Hmod; [| lia].
  assert (timestamp / W = w / W) as ->; [| lia].
  symmetry. apply (Z.div_unique _ _ _ (timestamp - w)); lia.
Qed.

Lemma chronological_insert_general
    (time_time : Q) (self : ChainHeadDB) (head_hash : bytes)
    (timestamp w : Z) (db : Store) (data : list (Z * bytes)) :
  0 < W ->
  0 <= timestamp -> timestamp + W <= 2 ^ 53 ->
  now time_time - HL * W < timestamp ->
  w mod W = 0 -> w <= timestamp < w + W ->
  chronological_windows db !! w = Some data ->
  exists before after,
    data = before ++ after /\
    (forall e, e ∈ after -> timestamp < e.1) /\
    (before = [] \/ exists e, last before = Some e /\ e.1 <= timestamp) /\
    add_block_hash_to_chronological_window time_time self head_hash
      timestamp db
    = (with_chronological_window w
         (before ++ (timestamp, head_hash) :: after) db, Ok tt) /\
    (sorted_by_timestamp data ->
     sorted_by_timestamp (before ++ (timestamp, head_hash) :: after)).
Proof.
  intros HW Hts Hsmall Hrecent Hmod Hin Hdata.
  destruct (chronological_insert_split data timestamp head_hash)
    as (before & after & Hsplit & Hafter & Hbefore & Hins).
  exists before, after. split; [assumption |]. split; [assumption |].
  split; [assumption |]. split.
  - rewrite chronological_insert_run by assumption.
    rewrite (window_of_timestamp timestamp w) by assumption.
    rewrite Hdata, Hins. reflexivity.
  - intros Hsorted. apply sorted_insert_split; [assumption .. |].
    rewrite <- Hsplit. assumption.
Qed.

Lemma add_block_hash_to_timestamp_rejects
    (time_time : Q) (self : ChainHeadDB) (address head_hash : bytes)
    (timestamp : Z) (db : Store) :
  length address = 20%nat ->
  0 <= timestamp <= UINT_256_MAX ->
  now time_time < timestamp \/ timestamp mod W <> 0 ->
  add_block_hash_to_timestamp time_time self address head_hash timestamp db =
  (db, Raise InvalidHeadRootTimestamp).
Proof.
  intros Ha Hu Hbad. unfold add_block_hash_to_timestamp.
  rewrite validate_canonical_address_ok, validate_uint256_ok by assumption.
  unfold now in Hbad. unfold mbind, M_bind, lift, raise, validate_is_bytes.
  destruct (timestamp >? _) eqn:E1; [reflexivity |].
  destruct Hbad as [Hbad|Hbad]; [lia |].
  destruct (timestamp mod W =? 0) eqn:E2; [lia | reflexivity].
Qed.

(** *** Reading heads *)

Lemma py_getitem_first {A} (x : A) (l : list A) : py_getitem (x :: l) 0 = Ok x.
Proof.
  unfold py_getitem. simpl. reflexivity.
Qed.

Lemma py_getitem_last {A} (x : A) (l : list A) :
  last l = Some x -> py_getitem l (-1) = Ok x.
Proof.
  intros Hl. rewrite last_lookup in Hl.
  pose proof (lookup_lt_Some _ _ _ Hl) as Hlen.
  unfold py_getitem. simpl.
  destruct (-1 + Z.of_nat (length l) <? 0) eqn:E1; [lia |].
  destruct (Z.of_nat (length l) <=? -1 + Z.of_nat (length l)) eqn:E2; [lia |].
  simpl. replace (Z.to_nat (-1 + Z.of_nat (length l))) with (pred (length l)) by lia.
  rewrite Hl. reflexivity.
Qed.

Lemma py_setitem_last {A} (x y : A) (l : list A) :
  last l = Some x ->
  py_setitem l (-1) y = Ok (<[pred (length l) := y]> l).
Proof.
  intros Hl. rewrite last_lookup in Hl.
  pose proof (lookup_lt_Some _ _ _ Hl) as Hlen.
  unfold py_setitem. simpl.
  destruct (-1 + Z.of_nat (length l) <? 0) eqn:E1; [lia |].
  destruct (Z.of_nat (length l) <=? -1 + Z.of_nat (length l)) eqn:E2; [lia |].
  simpl. replace (Z.to_nat (-1 + Z.of_nat (length l))) with (pred (length l)) by lia.
  reflexivity.
Qed.

Lemma py_getitem_nil {A} (i : Z) : py_getitem (@nil A) i = Raise IndexError.
Proof.
  unfold py_getitem. simpl. destruct (_ || _); reflexivity.
Qed.


Lemma py_dict_lookup_None {V} (l : list (Z * V)) (k : Z) :
  (forall v, (k, v) ∉ l) -> py_dict l !! k = None.
Proof.
  unfold py_dict. intros Hl. apply not_elem_of_list_to_map_1.
  intros Hk. apply list_elem_of_fmap in Hk as ([k' v] & -> & Hin).
  apply (Hl v). apply elem_of_reverse. exact Hin.
Qed.

Lemma py_dict_lookup_NoDup {V} (l : list (Z * V)) (k : Z) (v : V) :
  NoDup l.*1 -> (k, v) ∈ l -> py_dict l !! k = Some v.
Proof.
  unfold py_dict. intros Hnd Hin. apply elem_of_list_to_map_1.
  - rewrite fmap_reverse, reverse_Permutation. assumption.
  - apply elem_of_reverse. assumption.
Qed.


Lemma trie_contents_store (self : ChainHeadDB) (db : Store) :
  (trie_contents self db).1 = db.
Proof.
  unfold trie_contents, mbind, M_bind, mret, M_ret, raise, read_db.
  destruct (decide _); [reflexivity |].
  destruct (batch self !! root_hash self); [reflexivity |].
  destruct (trie_nodes db !! root_hash self); reflexivity.
Qed.

Lemma trie_cache_get_store (self : ChainHeadDB) (key : bytes) (db : Store) :
  (trie_cache_get self key db).1 = db.
Proof.
  unfold trie_cache_get. destruct (cache self !! key); [reflexivity |].
  unfold mbind, M_bind. pose proof (trie_contents_store self db) as Hs.
  destruct (trie_contents self db) as [db' [s|e]]; simpl in Hs; subst db'.
  - destruct (s !! key); reflexivity.
  - reflexivity.
Qed.



(** The call once its arguments are accepted and the stored list starts
    with [first]: the root it opens. *)
Lemma get_at_timestamp_run
    (time_time : Q) (self : ChainHeadDB) (address : bytes) (timestamp : Z)
    (db : Store) (first : Z * Root) (rest : list (Z * Root)) :
  length address = 20%nat ->
  0 <= timestamp <= UINT_256_MAX ->
  timestamp <= now time_time ->
  timestamp mod W = 0 ->
  historical_head_roots db = Some (first :: rest) ->
  first.1 <= timestamp ->
  get_chain_head_hash_at_timestamp time_time self address timestamp db =
  match py_dict (first :: rest) !! timestamp with
  | Some r => head_in_snapshot r address db
  | None =>
      match last (first :: rest) with
      | Some e => head_in_snapshot (e.2) address db
      | None => (db, Raise IndexError)
      end
  end.
Proof.
  intros Ha Hu Hnow Hmod Hring Hfirst.
  unfold get_chain_head_hash_at_timestamp, head_in_snapshot, get_chain_head_hash.
  rewrite validate_canonical_address_ok, validate_uint256_ok by assumption.
  unfold now in Hnow.
  unfold mbind, M_bind, lift, raise, mret, M_ret, get_historical_root_hashes,
    read_db.
  destruct (timestamp >? _) eqn:E1; [lia |].
  rewrite Hmod. simpl. rewrite Hring. rewrite py_getitem_first.
  destruct (timestamp <? first.1) eqn:E2; [lia |].
  destruct (py_dict (first :: rest) !! timestamp) as [r|]; [reflexivity |].
  destruct (last (first :: rest)) as [e|] eqn:El.
  - rewrite (py_getitem_last e) by assumption. reflexivity.
  - rewrite last_cons in El. destruct (last rest); discriminate.
Qed.

Lemma get_at_timestamp_rejects
    (time_time : Q) (self : ChainHeadDB) (address : bytes) (timestamp : Z)
    (db : Store) :
  length address = 20%nat ->
  0 <= timestamp <= UINT_256_MAX ->
  now time_time < timestamp \/ timestamp mod W <> 0 ->
  get_chain_head_hash_at_timestamp time_time self address timestamp db =
  (db, Raise InvalidHeadRootTimestamp).
Proof.
  intros Ha Hu Hbad. unfold get_chain_head_hash_at_timestamp.
  rewrite validate_canonical_address_ok, validate_uint256_ok by assumption.
  unfold now in Hbad. unfold mbind, M_bind, lift, raise.
  destruct (timestamp >? _) eqn:E1; [reflexivity |].
  destruct Hbad as [Hbad|Hbad]; [lia |].
  destruct (timestamp mod W =? 0) eqn:E2; [lia | reflexivity].
Qed.

Lemma get_at_timestamp_no_ring
    (time_time : Q) (self : ChainHeadDB) (address : bytes) (timestamp : Z)
    (db : Store) :
  length address = 20%nat ->
  0 <= timestamp <= UINT_256_MAX ->
  timestamp <= now time_time ->
  timestamp mod W = 0 ->
  get_chain_head_hash_at_timestamp time_time self address timestamp db =
  match historical_head_roots db with
  | None => (db, Ok None)
  | Some [] => (db, Raise IndexError)
  | Some (first :: rest) =>
      if timestamp <? first.1 then (db, Ok None)
      else get_chain_head_hash_at_timestamp time_time self address timestamp db
  end.
Proof.
  intros Ha Hu Hnow Hmod.
  destruct (historical_head_roots db) as [[|first rest]|] eqn:Hring.
  - unfold get_chain_head_hash_at_timestamp.
    rewrite validate_canonical_address_ok, validate_uint256_ok by assumption.
    unfold now in Hnow.
    unfold mbind, M_bind, lift, raise, mret, M_ret, get_historical_root_hashes,
      read_db.
    destruct (timestamp >? _) eqn:E1; [lia |].
    rewrite Hmod. simpl. rewrite Hring. reflexivity.
  - destruct (timestamp <? first.1) eqn:E2; [| reflexivity].
    unfold get_chain_head_hash_at_timestamp.
    rewrite validate_canonical_address_ok, validate_uint256_ok by assumption.
    unfold now in Hnow.
    unfold mbind, M_bind, lift, raise, mret, M_ret, get_historical_root_hashes,
      read_db.
    destruct (timestamp >? _) eqn:E1; [lia |].
    rewrite Hmod. simpl. rewrite Hring, py_getitem_first, E2. reflexivity.
  - unfold get_chain_head_hash_at_timestamp.
    rewrite validate_canonical_address_ok, validate_uint256_ok by assumption.
    unfold now in Hnow.
    unfold mbind, M_bind, lift, raise, mret, M_ret, get_historical_root_hashes,
      read_db.
    destruct (timestamp >? _) eqn:E1; [lia |].
    rewrite Hmod. simpl. rewrite Hring. reflexivity.
Qed.


(** X12: [add_block_hash_to_chronological_window] checks its timestamp
    neither against the clock nor for alignment.  For every timestamp
    above [now - HL * W] with [timestamp + W <= 2^53], where the float
    quotient is exact, however far after the clock, it returns normally
    and writes a list holding the pair under the window
    [timestamp / W * W], the rest of the store being kept; whereas
    [add_block_hash_to_timestamp] and [get_chain_head_hash_at_timestamp]
    raise [InvalidHeadRootTimestamp] on a timestamp after [now]. *)
Theorem chronological_accepts_future_timestamps
    (time_time : Q) (self : ChainHeadDB) (address head_hash : bytes)
    (timestamp : Z) (db : Store) :
  0 < W ->
  0 <= timestamp -> timestamp + W <= 2 ^ 53 ->
  now time_time - HL * W < timestamp ->
  (exists data,
     add_block_hash_to_chronological_window time_time self head_hash
       timestamp db
     = (with_chronological_window (timestamp / W * W) data db, Ok tt) /\
     (timestamp, head_hash) ∈ data) /\
  (length address = 20%nat -> now time_time < timestamp ->
   add_block_hash_to_timestamp time_time self address head_hash timestamp db
     = (db, Raise InvalidHeadRootTimestamp) /\
   get_chain_head_hash_at_timestamp time_time self address timestamp db
     = (db, Raise InvalidHeadRootTimestamp)).
Proof.
  intros HW Hts Hsmall Hrecent.
  pose proof (below_2_53_is_uint256 timestamp HW Hts Hsmall) as Hu. split.
  - rewrite chronological_insert_run by assumption.
    eexists. split; [reflexivity |].
    destruct (chronological_windows db !! _) as [data|].
    + destruct (chronological_insert_split data timestamp head_hash)
        as (before & after & _ & _ & _ & ->).
      apply elem_of_app. right. apply elem_of_cons. left. reflexivity.
    + apply list_elem_of_singleton. reflexivity.
  - intros Ha Hfuture. split.
    + apply add_block_hash_to_timestamp_rejects; [assumption .. | left; assumption].
    + apply get_at_timestamp_rejects; [assumption .. | left; assumption].
Qed.

(** *** Writes, reads and persistence of a handle *)

Lemma set_chain_head_hash_run
    (self : ChainHeadDB) (address head_hash : bytes) (db : Store)
    (s : gmap bytes bytes) :
  length address = 20%nat ->
  trie_contents self db = (db, Ok s) ->
  set_chain_head_hash self address head_hash db =
  (db, Ok (mkChainHeadDB (root_of (<[address := head_hash]> s))
             (<[root_of (<[address := head_hash]> s) :=
                  <[address := head_hash]> s]> (batch self))
             (<[address := head_hash]> (cache self)))).
Proof.
  intros Ha Hs. unfold set_chain_head_hash, trie_cache_set.
  rewrite validate_canonical_address_ok by assumption.
  unfold mbind, M_bind, lift, validate_is_bytes. rewrite Hs. reflexivity.
Qed.

Lemma trie_contents_blank (db : Store) :
  trie_contents (new_ChainHeadDB BLANK_HASH) db = (db, Ok ∅).
Proof.
  unfold trie_contents. simpl.
  destruct (decide (BLANK_HASH = BLANK_HASH)); [reflexivity | contradiction].
Qed.

(** C8: a head written through a handle is read back through the same
    handle although nothing was persisted: when the snapshot under the
    handle can be read, [set_chain_head_hash] returns normally without
    touching the store and [get_chain_head_hash] on the resulting handle
    returns the hash just written. *)
Theorem read_own_write
    (self : ChainHeadDB) (address head_hash : bytes) (db : Store)
    (s : gmap bytes bytes) :
  length address = 20%nat ->
  trie_contents self db = (db, Ok s) ->
  exists self',
    set_chain_head_hash self address head_hash db = (db, Ok self') /\
    get_chain_head_hash self' address db = (db, Ok (self', Some head_hash)).
Proof.
  intros Ha Hs. eexists. split.
  - apply set_chain_head_hash_run; eassumption.
  - unfold get_chain_head_hash, trie_cache_get.
    rewrite validate_canonical_address_ok by assumption.
    unfold mbind, M_bind, lift. simpl.
    rewrite lookup_insert_eq. reflexivity.
Qed.

(** Promotion only rewrites the historical list and the chronological
    windows. *)
Lemma keeps_tries_ret {A} (a : A) : keeps_tries (mret a).
Proof. intros db. split; reflexivity. Qed.

Lemma keeps_tries_lift {A} (r : result A) : keeps_tries (lift r).
Proof. intros db. split; reflexivity. Qed.

Lemma keeps_tries_raise {A} (e : exn) : keeps_tries (@raise A e).
Proof. intros db. split; reflexivity. Qed.

Lemma keeps_tries_bind {A B} (m : M A) (f : A -> M B) :
  keeps_tries m -> (forall a, keeps_tries (f a)) -> keeps_tries (m ≫= f).
Proof.
  intros Hm Hf db. unfold mbind, M_bind.
  specialize (Hm db). destruct (m db) as [db1 [a|e]]; simpl in *.
  - destruct (Hf a db1) as [H1 H2]. destruct Hm as [H3 H4].
    split; congruence.
  - assumption.
Qed.

Lemma keeps_tries_for_loop {A S} (xs : list A) (body : A -> S -> M S) (acc : S) :
  (forall x a, keeps_tries (body x a)) -> keeps_tries (for_loop xs body acc).
Proof.
  intros Hbody. revert acc. induction xs as [|x xs IH]; intros acc; simpl.
  - apply keeps_tries_ret.
  - apply keeps_tries_bind; [apply Hbody | intros a; apply IH].
Qed.

Lemma keeps_tries_save_historical (root_hashes : list (Z * Root)) :
  keeps_tries (save_historical_root_hashes root_hashes).
Proof. intros db. split; reflexivity. Qed.

Lemma keeps_tries_get_historical : keeps_tries get_historical_root_hashes.
Proof. intros db. split; reflexivity. Qed.

Lemma keeps_tries_delete_chronological (timestamp : Z) :
  keeps_tries (delete_chronological_block_window timestamp).
Proof.
  unfold delete_chronological_block_window.
  apply keeps_tries_bind; [apply keeps_tries_lift | intros _].
  destruct (negb _); [apply keeps_tries_raise |].
  intros db. split; reflexivity.
Qed.

Lemma keeps_tries_append_current
    (time_time : Q) (self : ChainHeadDB) :
  keeps_tries (append_current_root_hash_to_historical time_time self).
Proof.
  unfold append_current_root_hash_to_historical.
  apply keeps_tries_bind; [apply keeps_tries_get_historical | intros [ring|]];
    [| apply keeps_tries_save_historical].
  apply keeps_tries_bind; [apply keeps_tries_lift | intros first].
  apply keeps_tries_bind; [apply keeps_tries_lift | intros last].
  destruct (last.1 >? _).
  - apply keeps_tries_bind; [apply keeps_tries_lift | intros ring'].
    apply keeps_tries_save_historical.
  - apply keeps_tries_bind.
    + destruct (last.1 <? _).
      * apply keeps_tries_bind.
        -- apply keeps_tries_for_loop. intros i acc.
           apply keeps_tries_bind; [apply keeps_tries_lift | intros e].
           apply keeps_tries_ret.
        -- intros new. apply keeps_tries_bind;
             [apply keeps_tries_save_historical | intros _].
           apply keeps_tries_bind; [apply keeps_tries_lift | intros e].
           apply keeps_tries_ret.
      * apply keeps_tries_bind.
        -- apply keeps_tries_for_loop. intros i acc.
           apply keeps_tries_bind; [apply keeps_tries_lift | intros e].
           apply keeps_tries_ret.
        -- intros ring'. apply keeps_tries_bind;
             [apply keeps_tries_save_historical | intros _].
           apply keeps_tries_bind; [apply keeps_tries_lift | intros e].
           apply keeps_tries_ret.
    + intros final. apply keeps_tries_for_loop. intros i [].
      apply keeps_tries_delete_chronological.
Qed.

(** The store after [persist(save_current_root_hash=True)], whether or not
    the promotion that ends it raised: the buffered snapshots are in the
    trie nodes and the current root is the handle's. *)
Lemma persist_saves
    (time_time : Q) (self : ChainHeadDB) (db : Store) :
  let db' := (persist time_time self true db).1 in
  trie_nodes db' = batch self ∪ trie_nodes db /\
  current_head_root db' = Some (root_hash self).
Proof.
  unfold persist, batch_commit, save_current_root_hash.
  unfold mbind, M_bind, write_db, mret, M_ret. cbv beta iota zeta.
  match goal with
  | |- context [append_current_root_hash_to_historical ?t ?s ?d] =>
      pose proof (keeps_tries_append_current t s d) as Hk;
      destruct (append_current_root_hash_to_historical t s d) as [db1 [[]|e]]
  end; simpl in *; exact Hk.
Qed.

Lemma load_from_saved_root_hash_run (db : Store) :
  load_from_saved_root_hash db =
  (db, Ok (new_ChainHeadDB (default BLANK_HASH (current_head_root db)))).
Proof.
  unfold load_from_saved_root_hash, mbind, M_bind, read_db, mret, M_ret.
  destruct (current_head_root db); reflexivity.
Qed.

(** C7: a handle is opened on a readable snapshot of the store (the empty
    one by default), a head is written and the handle persisted with
    [save_current_root_hash=True].  In the store so reached,
    [load_from_saved_root_hash] gives a handle whose root is the saved
    root, the root of the persisted handle, and whose
    [get_chain_head_hash] returns the head that was written.  On a store
    without the current-root key, [load_from_saved_root_hash] gives a
    handle on the empty snapshot: its root is [BLANK_HASH] and every
    address has no head. *)
Theorem persist_load_round_trip
    (time_time : Q) (root : Root) (db : Store) (s : gmap bytes bytes)
    (address head_hash : bytes) :
  0 < W ->
  length address = 20%nat ->
  trie_contents (new_ChainHeadDB root) db = (db, Ok s) ->
  (exists self,
     set_chain_head_hash (new_ChainHeadDB root) address head_hash db
       = (db, Ok self) /\
     let db' := (persist time_time self true db).1 in
     exists loaded,
       load_from_saved_root_hash db' = (db', Ok loaded) /\
       current_head_root db' = Some (root_hash self) /\
       root_hash loaded = root_hash self /\
       exists loaded',
         get_chain_head_hash loaded address db'
           = (db', Ok (loaded', Some head_hash))) /\
  (forall db0 : Store,
     current_head_root db0 = None ->
     load_from_saved_root_hash db0 = (db0, Ok (new_ChainHeadDB BLANK_HASH)) /\
     forall a, length a = 20%nat ->
       get_chain_head_hash (new_ChainHeadDB BLANK_HASH) a db0
         = (db0, Ok (new_ChainHeadDB BLANK_HASH, None))).
Proof.
  intros _ Ha Hs. split.
  - eexists. split; [apply set_chain_head_hash_run; eassumption |].
    set (s' := <[address := head_hash]> s).
    set (self := mkChainHeadDB _ _ _).
    intros db'. destruct (persist_saves time_time self db) as [Hnodes Hcur].
    fold db' in Hnodes, Hcur.
    exists (new_ChainHeadDB (root_of s')).
    split; [| split; [exact Hcur | split; [reflexivity |]]].
    + rewrite load_from_saved_root_hash_run, Hcur. reflexivity.
    + unfold get_chain_head_hash, trie_cache_get, trie_contents.
      rewrite validate_canonical_address_ok by assumption.
      unfold mbind, M_bind, lift, mret, M_ret, read_db. simpl.
      destruct (decide (root_of s' = BLANK_HASH)) as [Hblank|_].
      * apply root_of_inj in Hblank. exfalso.
        apply (insert_non_empty s address head_hash). exact Hblank.
      * rewrite !lookup_empty. cbv beta. rewrite Hnodes.
        rewrite (lookup_union_Some_l _ _ _ s') by apply lookup_insert_eq.
        unfold s'. rewrite lookup_insert_eq. eexists. reflexivity.
  - intros db0 Hnone. split.
    + rewrite load_from_saved_root_hash_run, Hnone. reflexivity.
    + intros a Hlen. unfold get_chain_head_hash, trie_cache_get.
      rewrite validate_canonical_address_ok by assumption.
      unfold mbind, M_bind, lift, mret, M_ret. simpl.
      rewrite lookup_empty, trie_contents_blank, lookup_empty. reflexivity.
Qed.

(** *** Promotion of the current root *)

Lemma bind_run {A B} (m : M A) (f : A -> M B) (db : Store) :
  (m ≫= f) db =
  match m db with
  | (db', Ok a) => f a db'
  | (db', Raise e) => (db', Raise e)
  end.
Proof. reflexivity. Qed.

Lemma elem_of_range (a b i : Z) : i ∈ range a b <-> a <= i < b.
Proof.
  unfold range. rewrite list_elem_of_fmap. split.
  - intros (k & -> & Hk). apply elem_of_seq in Hk. lia.
  - intros Hi. exists (Z.to_nat (i - a)). split; [lia |].
    apply elem_of_seq. lia.
Qed.

Lemma for_loop_snoc {A E} (P : list E -> Prop) (g : A -> E)
    (xs : list A) (body : A -> list E -> M (list E)) :
  (forall x acc db, P acc ->
     body x acc db = (db, Ok (acc ++ [g x])) /\ P (acc ++ [g x])) ->
  forall acc db, P acc ->
    for_loop xs body acc db = (db, Ok (acc ++ map g xs)).
Proof.
  intros Hbody. induction xs as [|x xs IH]; intros acc db HP; simpl.
  - rewrite app_nil_r. reflexivity.
  - rewrite bind_run. destruct (Hbody x acc db HP) as [-> HP'].
    rewrite IH by assumption. rewrite <- app_assoc. reflexivity.
Qed.

Lemma keeps_ring_bind {A B} (m : M A) (f : A -> M B) :
  keeps_ring m -> (forall a, keeps_ring (f a)) -> keeps_ring (m ≫= f).
Proof.
  intros Hm Hf db. rewrite bind_run. specialize (Hm db).
  destruct (m db) as [db1 [a|e]]; simpl in *.
  - rewrite Hf. assumption.
  - assumption.
Qed.

Lemma keeps_ring_for_loop {A S} (xs : list A) (body : A -> S -> M S) (acc : S) :
  (forall x a, keeps_ring (body x a)) -> keeps_ring (for_loop xs body acc).
Proof.
  intros Hbody. revert acc. induction xs as [|x xs IH]; intros acc; simpl.
  - intros db. reflexivity.
  - apply keeps_ring_bind; [apply Hbody | intros a; apply IH].
Qed.

Lemma keeps_ring_delete_chronological (timestamp : Z) :
  keeps_ring (delete_chronological_block_window timestamp).
Proof.
  unfold delete_chronological_block_window.
  apply keeps_ring_bind; [intros db; reflexivity | intros _].
  destruct (negb _); intros db; reflexivity.
Qed.

Lemma delete_dropped_windows_keeps_ring
    (initial_first_time : Z) (ring : list (Z * Root)) :
  keeps_ring (delete_dropped_windows initial_first_time ring).
Proof.
  unfold delete_dropped_windows. apply keeps_ring_bind.
  - apply keeps_ring_bind; intros; intros db; reflexivity.
  - intros final. apply keeps_ring_for_loop. intros i [].
    apply keeps_ring_delete_chronological.
Qed.

(** The branch taken when the latest window is finished and still within
    retention. *)
Lemma promote_rollover_run
    (time_time : Q) (self : ChainHeadDB) (db : Store)
    (first : Z * Root) (rest : list (Z * Root)) (latest : Z) (r_last : Root) :
  (0 <= time_time)%Q -> 0 < W ->
  historical_head_roots db = Some (first :: rest) ->
  last (first :: rest) = Some (latest, r_last) ->
  latest <= last_finished time_time ->
  now time_time - HL * W <= latest ->
  let ring' :=
    py_del_prefix (-1 * HL)
      ((first :: rest) ++ synthetic_entries time_time latest r_last
         ++ [(last_finished time_time + W, root_hash self)]) in
  append_current_root_hash_to_historical time_time self db =
  delete_dropped_windows (first.1) ring' (with_historical_roots ring' db).
Proof.
  intros Ht HW Hring Hlast Hle Hnot ring'.
  unfold append_current_root_hash_to_historical.
  rewrite bind_run. unfold get_historical_root_hashes at 1.
  rewrite bind_run. unfold read_db at 1. unfold mret at 1, M_ret at 1.
  rewrite Hring.
  rewrite py_int_truediv_float by assumption.
  fold (now time_time). fold (last_finished time_time).
  rewrite bind_run. unfold lift at 1. rewrite py_getitem_first.
  rewrite bind_run. unfold lift at 1. rewrite (py_getitem_last _ _ Hlast).
  cbn [fst snd].
  destruct (latest >? last_finished time_time) eqn:E1; [lia |].
  rewrite bind_run.
  destruct (latest <? now time_time - HL * W) eqn:E2; [lia |].
  rewrite bind_run.
  rewrite py_int_truediv by lia.
  rewrite (for_loop_snoc (fun hr => exists w, last hr = Some (w, r_last))
             (fun i => (latest + W * (i + 1), r_last))).
  - rewrite bind_run. unfold save_historical_root_hashes at 1, write_db at 1.
    subst ring'. unfold synthetic_entries. rewrite <- app_assoc.
    reflexivity.
  - intros x acc db0 [w Hw]. rewrite bind_run. unfold lift at 1.
    rewrite (py_getitem_last _ _ Hw). split; [reflexivity |].
    eexists. apply last_snoc.
  - eexists. exact Hlast.
Qed.

(** The branch taken when the latest window is older than the retention
    span. *)
Lemma promote_offline_run
    (time_time : Q) (self : ChainHeadDB) (db : Store)
    (first : Z * Root) (rest : list (Z * Root)) (latest : Z) (r_last : Root) :
  (0 <= time_time)%Q -> 0 < W ->
  historical_head_roots db = Some (first :: rest) ->
  last (first :: rest) = Some (latest, r_last) ->
  latest <= last_finished time_time ->
  latest < now time_time - HL * W ->
  let ring' :=
    map (fun i => (now time_time - HL * W + W * i, r_last)) (range 0 HL)
      ++ [(last_finished time_time + W, root_hash self)] in
  append_current_root_hash_to_historical time_time self db =
  delete_dropped_windows (first.1) ring' (with_historical_roots ring' db).
Proof.
  intros Ht HW Hring Hlast Hle Hold ring'.
  unfold append_current_root_hash_to_historical.
  rewrite bind_run. unfold get_historical_root_hashes at 1.
  rewrite bind_run. unfold read_db at 1. unfold mret at 1, M_ret at 1.
  rewrite Hring.
  rewrite py_int_truediv_float by assumption.
  fold (now time_time). fold (last_finished time_time).
  rewrite bind_run. unfold lift at 1. rewrite py_getitem_first.
  rewrite bind_run. unfold lift at 1. rewrite (py_getitem_last _ _ Hlast).
  cbn [fst snd].
  destruct (latest >? last_finished time_time) eqn:E1; [lia |].
  rewrite bind_run.
  destruct (latest <? now time_time - HL * W) eqn:E2; [| lia].
  rewrite bind_run.
  rewrite (for_loop_snoc (fun _ => True)
             (fun i => (now time_time - HL * W + W * i, r_last))).
  - rewrite bind_run. unfold save_historical_root_hashes at 1, write_db at 1.
    reflexivity.
  - intros x acc db0 _. rewrite bind_run. unfold lift at 1.
    split; [reflexivity | exact I].
  - exact I.
Qed.

(** The branch taken when the latest window is still in progress. *)
Lemma promote_in_progress_run
    (time_time : Q) (self : ChainHeadDB) (db : Store)
    (first : Z * Root) (rest : list (Z * Root)) (latest : Z) (r_last : Root) :
  (0 <= time_time)%Q -> 0 < W ->
  historical_head_roots db = Some (first :: rest) ->
  last (first :: rest) = Some (latest, r_last) ->
  last_finished time_time < latest ->
  append_current_root_hash_to_historical time_time self db =
  (with_historical_roots
     (<[pred (length (first :: rest)) := (latest, root_hash self)]>
        (first :: rest)) db, Ok tt).
Proof.
  intros Ht HW Hring Hlast Hgt.
  unfold append_current_root_hash_to_historical.
  rewrite bind_run. unfold get_historical_root_hashes at 1.
  rewrite bind_run. unfold read_db at 1. unfold mret at 1, M_ret at 1.
  rewrite Hring.
  rewrite py_int_truediv_float by assumption.
  fold (now time_time). fold (last_finished time_time).
  rewrite bind_run. unfold lift at 1. rewrite py_getitem_first.
  rewrite bind_run. unfold lift at 1. rewrite (py_getitem_last _ _ Hlast).
  cbn [fst snd].
  destruct (latest >? last_finished time_time) eqn:E1; [| lia].
  rewrite bind_run. unfold lift at 1.
  rewrite (py_setitem_last _ _ _ Hlast). reflexivity.
Qed.

(** The branch taken when no list is stored yet. *)
Lemma promote_first_run
    (time_time : Q) (self : ChainHeadDB) (db : Store) :
  (0 <= time_time)%Q -> 0 < W ->
  historical_head_roots db = None ->
  append_current_root_hash_to_historical time_time self db =
  (with_historical_roots [(last_finished time_time + W, root_hash self)] db,
   Ok tt).
Proof.
  intros Ht HW Hring.
  unfold append_current_root_hash_to_historical.
  rewrite bind_run. unfold get_historical_root_hashes at 1.
  rewrite bind_run. unfold read_db at 1. unfold mret at 1, M_ret at 1.
  rewrite Hring.
  rewrite py_int_truediv_float by assumption.
  fold (now time_time). fold (last_finished time_time).
  reflexivity.
Qed.

Lemma append_current_keeps_saved_ring
    (initial_first_time : Z) (ring : list (Z * Root)) (db : Store) :
  historical_head_roots
    (delete_dropped_windows initial_first_time ring
       (with_historical_roots ring db)).1 = Some ring.
Proof. rewrite delete_dropped_windows_keeps_ring. reflexivity. Qed.

Lemma synthetic_entries_spec
    (time_time : Q) (latest : Z) (root : Root) (e : Z * Root) :
  0 < W -> latest <= last_finished time_time ->
  e ∈ synthetic_entries time_time latest root <->
  exists k, 1 <= k /\ latest + k * W <= last_finished time_time /\
            e = (latest + k * W, root).
Proof.
  intros HW Hle. unfold synthetic_entries. rewrite list_elem_of_fmap.
  set (n := (last_finished time_time - latest) / W).
  assert (forall k, k <= n <-> latest + k * W <= last_finished time_time) as Hn.
  { intros k. unfold n. split.
    - intros Hk. pose proof (Z.mul_div_le (last_finished time_time - latest) W HW).
      nia.
    - intros Hk. apply Z.div_le_lower_bound; lia. }
  split.
  - intros (i & -> & Hi). apply elem_of_range in Hi.
    exists (i + 1). split; [lia |]. split; [apply Hn; lia |].
    f_equal. lia.
  - intros (k & Hk1 & Hk2 & ->). exists (k - 1). split; [f_equal; lia |].
    apply elem_of_range. apply Hn in Hk2. lia.
Qed.

Lemma py_del_prefix_keep_last {A} (k : Z) (l : list A) :
  0 < k -> py_del_prefix (-1 * k) l = drop (length l - Z.to_nat k) l.
Proof.
  intros Hk. unfold py_del_prefix.
  destruct (-1 * k <? 0) eqn:E; [| lia].
  f_equal. lia.
Qed.

(** The list saved by the rollover branch. *)
Lemma promote_rollover_general
    (time_time : Q) (self : ChainHeadDB) (db : Store)
    (first : Z * Root) (rest : list (Z * Root)) (latest : Z) (r_last : Root) :
  (0 <= time_time)%Q -> 0 < W ->
  historical_head_roots db = Some (first :: rest) ->
  last (first :: rest) = Some (latest, r_last) ->
  latest <= last_finished time_time ->
  now time_time - HL * W <= latest ->
  let synthetic := synthetic_entries time_time latest r_last in
  let appended :=
    (first :: rest) ++ synthetic
      ++ [(last_finished time_time + W, root_hash self)] in
  (forall e, e ∈ synthetic <->
     exists k, 1 <= k /\ latest + k * W <= last_finished time_time /\
               e = (latest + k * W, r_last)) /\
  historical_head_roots
    (append_current_root_hash_to_historical time_time self db).1
  = Some (py_del_prefix (-1 * HL) appended) /\
  (0 < HL ->
   py_del_prefix (-1 * HL) appended
   = drop (length appended - Z.to_nat HL) appended).
Proof.
  intros Ht HW Hring Hlast Hle Hnot synthetic appended. split; [| split].
  - intros e. apply synthetic_entries_spec; assumption.
  - rewrite (promote_rollover_run _ _ _ first rest latest r_last) by assumption.
    apply append_current_keeps_saved_ring.
  - apply py_del_prefix_keep_last.
Qed.

(** *** The late-block update *)

(** The start of the range is the result of a true division, which
    [range] refuses: no call reaches the loop, whatever its arguments. *)
Lemma add_block_hash_to_timestamp_never_returns
    (time_time : Q) (self : ChainHeadDB) (address head_hash : bytes)
    (timestamp : Z) (db : Store) :
  exists e,
    (add_block_hash_to_timestamp time_time self address head_hash
       timestamp db).2 = Raise e.
Proof.
  unfold add_block_hash_to_timestamp.
  rewrite bind_run. unfold lift at 1.
  destruct (validate_canonical_address address) as [[]|e]; [| eexists; reflexivity].
  rewrite bind_run. unfold lift at 1, validate_is_bytes at 1.
  rewrite bind_run. unfold lift at 1.
  destruct (validate_uint256 timestamp) as [[]|e]; [| eexists; reflexivity].
  destruct (timestamp >? _); [eexists; reflexivity |].
  destruct (negb _); [eexists; reflexivity |].
  rewrite bind_run.
  destruct (append_current_root_hash_to_historical time_time self db)
    as [db1 [[]|e]]; [| eexists; reflexivity].
  rewrite bind_run. unfold get_historical_root_hashes at 1.
  rewrite bind_run. unfold read_db at 1. unfold mret at 1, M_ret at 1.
  destruct (historical_head_roots db1) as [ring|]; [| eexists; reflexivity].
  rewrite bind_run. unfold lift at 1.
  destruct (py_getitem ring 0) as [first|e]; [| eexists; reflexivity].
  rewrite bind_run. unfold lift at 1. unfold py_truediv at 3.
  unfold py_range. eexists. reflexivity.
Qed.

(** Without entries to visit the loop leaves the list as it is. *)
Lemma rewrite_historical_roots_nil
    (time_time : Q) (address head_hash : bytes)
    (ring : list (Z * Root)) (db : Store) :
  rewrite_historical_roots time_time address head_hash [] ring db
  = (db, Ok ring).
Proof. reflexivity. Qed.

(** *** The invariant of the historical list outside the offline branch *)

Lemma progression_length (w0 : Z) (n : nat) : length (progression w0 n) = n.
Proof. revert w0. induction n as [|n IH]; intros w0; simpl; [| rewrite IH]; reflexivity. Qed.

Lemma progression_app (w0 : Z) (n m : nat) :
  progression w0 (n + m)
  = progression w0 n ++ progression (w0 + W * Z.of_nat n) m.
Proof.
  revert w0. induction n as [|n IH]; intros w0; simpl.
  - f_equal. lia.
  - rewrite IH. do 3 f_equal. lia.
Qed.

Lemma progression_drop (w0 : Z) (n k : nat) :
  drop k (progression w0 n) = progression (w0 + W * Z.of_nat k) (n - k).
Proof.
  revert w0 n. induction k as [|k IH]; intros w0 n.
  - rewrite drop_0, Nat.sub_0_r. f_equal. lia.
  - destruct n as [|n]; simpl; [reflexivity |].
    rewrite IH. f_equal. lia.
Qed.

Lemma progression_seq (a : Z) (s m : nat) :
  map (fun i : nat => a + W * Z.of_nat i) (seq s m)
  = progression (a + W * Z.of_nat s) m.
Proof.
  revert s. induction m as [|m IH]; intros s; simpl; [reflexivity |].
  rewrite IH. do 2 f_equal. lia.
Qed.

Lemma windows_spaced_progression (ring : list (Z * Root)) :
  windows_spaced ring = true <->
  exists w0, ring.*1 = progression w0 (length ring).
Proof.
  induction ring as [|a ring IH].
  - split; [exists 0; reflexivity | reflexivity].
  - destruct ring as [|b tl].
    + split; [exists (a.1); reflexivity | reflexivity].
    + change (windows_spaced (a :: b :: tl))
        with ((b.1 - a.1 =? W) && windows_spaced (b :: tl)).
      rewrite andb_true_iff, IH. split.
      * intros [Hab (w0 & Hw)]. exists (a.1).
        simpl in Hw. injection Hw as Hb Htl. simpl.
        f_equal. f_equal; [lia |]. rewrite Htl. f_equal. lia.
      * intros (w0 & Hw). simpl in Hw. injection Hw as Ha Hb Htl.
        split; [lia |]. exists (b.1). simpl. f_equal.
        rewrite Htl. f_equal. lia.
Qed.

Lemma windows_spaced_increasing (ring : list (Z * Root)) :
  0 < W -> windows_spaced ring = true -> windows_increasing ring = true.
Proof.
  intros HW. induction ring as [|a ring IH]; [reflexivity |].
  destruct ring as [|b tl]; [reflexivity |].
  change (windows_spaced (a :: b :: tl))
    with ((b.1 - a.1 =? W) && windows_spaced (b :: tl)).
  change (windows_increasing (a :: b :: tl))
    with ((a.1 <? b.1) && windows_increasing (b :: tl)).
  rewrite !andb_true_iff. intros [Hab Htl]. split; [lia | apply IH; exact Htl].
Qed.

Lemma synthetic_entries_windows
    (time_time : Q) (latest : Z) (root : Root) :
  (synthetic_entries time_time latest root).*1
  = progression (latest + W)
      (Z.to_nat ((last_finished time_time - latest) / W)).
Proof.
  unfold synthetic_entries, range.
  rewrite Z.sub_0_r.
  generalize (Z.to_nat ((last_finished time_time - latest) / W)).
  intros m.
  assert (forall s : nat,
            (map (fun i => (latest + W * (i + 1), root))
                 (map (fun i : nat => 0 + Z.of_nat i) (seq s m))).*1
            = progression (latest + W + W * Z.of_nat s) m) as Hgen.
  { induction m as [|m IH]; intros s0; simpl; [reflexivity |].
    f_equal; [lia |]. rewrite IH. f_equal. lia. }
  rewrite Hgen. f_equal. lia.
Qed.

Lemma progression_last (w0 : Z) (n : nat) :
  last (progression w0 (S n)) = Some (w0 + W * Z.of_nat n).
Proof.
  revert w0. induction n as [|n IH]; intros w0.
  - simpl. f_equal. lia.
  - change (progression w0 (S (S n)))
      with (w0 :: progression (w0 + W) (S n)).
    rewrite last_cons, IH. f_equal. lia.
Qed.

Lemma ring_invariant_of_windows (ring : list (Z * Root)) (w0 : Z) :
  0 < W ->
  ring.*1 = progression w0 (length ring) ->
  Z.of_nat (length ring) <= HL + 1 ->
  ring_invariant ring = true.
Proof.
  intros HW Hw Hlen. unfold ring_invariant.
  assert (windows_spaced ring = true) as Hs.
  { apply windows_spaced_progression. exists w0. exact Hw. }
  rewrite Hs, (windows_spaced_increasing ring HW Hs). simpl.
  apply Z.leb_le. exact Hlen.
Qed.

(** X4: outside the offline branch a promotion keeps the invariant of
    the historical list.  When the stored list, if any, satisfies the
    invariant and its latest window is aligned and, when finished, within
    retention, the list saved by the promotion has increasing windows one
    window length apart and at most [HL + 1] entries. *)
Lemma promote_keeps_invariant_within_retention
    (time_time : Q) (self : ChainHeadDB) (db : Store) :
  (0 <= time_time)%Q -> 0 < W -> 0 < HL ->
  (forall ring, historical_head_roots db = Some ring ->
     ring_invariant ring = true /\
     exists e, last ring = Some e /\ e.1 mod W = 0 /\
       (e.1 <= last_finished time_time -> now time_time - HL * W <= e.1)) ->
  exists ring',
    historical_head_roots
      (append_current_root_hash_to_historical time_time self db).1
    = Some ring' /\
    ring_invariant ring' = true.
Proof.
  intros Ht HW HHL Hwf.
  destruct (historical_head_roots db) as [ring|] eqn:Hring.
  - destruct (Hwf ring eq_refl) as (Hinv & [latest r_last] & Hlast & Hal & Hret).
    simpl in Hal, Hret.
    destruct ring as [|first rest]; [discriminate |].
    unfold ring_invariant in Hinv.
    apply andb_true_iff in Hinv as [Hinv Hlen].
    apply andb_true_iff in Hinv as [_ Hsp].
    apply Z.leb_le in Hlen.
    apply windows_spaced_progression in Hsp as [w0 Hw0].
    assert (latest = w0 + W * Z.of_nat (length rest)) as Hlatest.
    { pose proof (f_equal last Hw0) as Hl.
      rewrite fmap_last, Hlast in Hl. cbn [length] in Hl.
      rewrite progression_last in Hl. simpl in Hl. congruence. }
    destruct (decide (last_finished time_time < latest)) as [Hgt|Hle].
    + rewrite (promote_in_progress_run _ _ _ first rest latest r_last)
        by assumption.
      eexists. split; [reflexivity |].
      apply (ring_invariant_of_windows _ w0); [assumption | |].
      * rewrite length_insert, list_fmap_insert. cbn [fst].
        rewrite list_insert_id; [exact Hw0 |].
        rewrite <- (length_fmap fst (first :: rest)).
        rewrite <- last_lookup, fmap_last, Hlast. reflexivity.
      * rewrite length_insert. exact Hlen.
    + rewrite (promote_rollover_run _ _ _ first rest latest r_last)
        by (assumption || lia).
      rewrite append_current_keeps_saved_ring.
      eexists. split; [reflexivity |].
      rewrite py_del_prefix_keep_last by assumption.
      set (m := Z.to_nat ((last_finished time_time - latest) / W)).
      set (appended := (first :: rest) ++ _).
      assert (appended.*1
              = progression w0 (length (first :: rest) + m + 1)) as Happ.
      { unfold appended. rewrite !fmap_app, synthetic_entries_windows, Hw0.
        fold m.
        replace (length (first :: rest) + m + 1)%nat
          with (length (first :: rest) + (m + 1))%nat by lia.
        rewrite (progression_app w0), (progression_app _ m 1).
        f_equal. f_equal.
        - f_equal. cbn [length]. lia.
        - simpl. f_equal.
          assert ((last_finished time_time - latest) mod W = 0) as Hdiv.
          { unfold last_finished. rewrite Zminus_mod, Z.mod_mul, Hal by lia.
            reflexivity. }
          apply Z.div_exact in Hdiv; [| lia].
          assert (0 <= (last_finished time_time - latest) / W)
            by (apply Z.div_pos; lia).
          unfold m. cbn [length]. lia. }
      assert (length appended = (length (first :: rest) + m + 1)%nat) as Hla.
      { rewrite <- (length_fmap fst), Happ. apply progression_length. }
      apply (ring_invariant_of_windows _
               (w0 + W * Z.of_nat (length appended - Z.to_nat HL))).
      * assumption.
      * rewrite fmap_drop, Happ, progression_drop, length_drop, Hla.
        reflexivity.
      * rewrite length_drop. lia.
  - rewrite promote_first_run by assumption.
    eexists. split; [reflexivity |].
    unfold ring_invariant. simpl. apply Z.leb_le. lia.
Qed.

(** *** The offline branch *)

Lemma range_snoc (a b : Z) : a < b -> range a b = range a (b - 1) ++ [b - 1].
Proof.
  intros Hab. unfold range.
  replace (Z.to_nat (b - a)) with (S (Z.to_nat (b - 1 - a))) by lia.
  rewrite seq_S, map_app. simpl. do 2 f_equal. lia.
Qed.

Lemma windows_spaced_last_two (l : list (Z * Root)) (a b : Z * Root) :
  windows_spaced (l ++ [a; b]) = true -> b.1 - a.1 = W.
Proof.
  intros Hs. apply windows_spaced_progression in Hs as [w0 Hw].
  rewrite fmap_app, length_app in Hw. simpl in Hw.
  rewrite progression_app in Hw.
  apply app_inj_1 in Hw as [_ Hw];
    [| rewrite length_fmap, progression_length; reflexivity].
  simpl in Hw. injection Hw as Ha Hb. lia.
Qed.

(** X5: the list saved by the offline branch.  When the latest stored
    window is older than [now - HL * W], the promotion saves [HL] entries
    with windows [now - HL * W + W * i] and the root of the former latest
    entry, followed by [(last_finished + W, self.root_hash)]: [HL + 1]
    entries whose windows are not all one window length apart, the last
    synthetic window being [now - W] and the current window more than [W]
    later. *)
Lemma promote_offline_general
    (time_time : Q) (self : ChainHeadDB) (db : Store)
    (first : Z * Root) (rest : list (Z * Root)) (latest : Z) (r_last : Root) :
  (0 <= time_time)%Q -> 0 < W -> 0 < HL ->
  historical_head_roots db = Some (first :: rest) ->
  last (first :: rest) = Some (latest, r_last) ->
  latest < now time_time - HL * W ->
  let ring' :=
    map (fun i => (now time_time - HL * W + W * i, r_last)) (range 0 HL)
      ++ [(last_finished time_time + W, root_hash self)] in
  historical_head_roots
    (append_current_root_hash_to_historical time_time self db).1
  = Some ring' /\
  Z.of_nat (length ring') = HL + 1 /\
  windows_spaced ring' = false.
Proof.
  intros Ht HW HHL Hring Hlast Hold ring'.
  assert (last_finished time_time <= now time_time
          < last_finished time_time + W) as Hlf.
  { unfold last_finished.
    pose proof (Z.mul_div_le (now time_time) W HW).
    pose proof (Z.mul_succ_div_gt (now time_time) W HW). lia. }
  split; [| split].
  - rewrite (promote_offline_run _ _ _ first rest latest r_last)
      by (assumption || nia).
    apply append_current_keeps_saved_ring.
  - unfold ring', range. rewrite length_app, !length_map, length_seq.
    simpl. lia.
  - destruct (windows_spaced ring') eqn:Hs; [| reflexivity].
    exfalso. unfold ring' in Hs.
    rewrite (range_snoc 0 HL HHL), map_app, <- app_assoc in Hs.
    apply windows_spaced_last_two in Hs. simpl in Hs. nia.
Qed.

(** *** The latest entry after a promotion *)

Lemma last_drop_lt {A} (l : list A) (k : nat) :
  (k < length l)%nat -> last (drop k l) = last l.
Proof.
  intros Hk. rewrite !last_lookup, lookup_drop, length_drop. f_equal. lia.
Qed.

Lemma with_historical_roots_same (ring : list (Z * Root)) (db : Store) :
  historical_head_roots db = Some ring -> with_historical_roots ring db = db.
Proof. destruct db. simpl. intros ->. reflexivity. Qed.

Lemma promote_empty_ring (time_time : Q) (self : ChainHeadDB) (db : Store) :
  historical_head_roots db = Some [] ->
  append_current_root_hash_to_historical time_time self db
  = (db, Raise IndexError).
Proof.
  intros Hring. unfold append_current_root_hash_to_historical.
  rewrite bind_run. unfold get_historical_root_hashes at 1.
  rewrite bind_run. unfold read_db at 1. unfold mret at 1, M_ret at 1.
  rewrite Hring. rewrite bind_run. unfold lift at 1.
  rewrite py_getitem_nil. reflexivity.
Qed.

(** Whatever the branch, the list saved by a promotion ends with the root
    of the handle under a window after the last finished one; that window
    is the current window unless the stored latest window was already
    later. *)
Lemma promote_saved_last
    (time_time : Q) (self : ChainHeadDB) (db : Store) :
  (0 <= time_time)%Q -> 0 < W -> 0 < HL ->
  historical_head_roots db <> Some [] ->
  exists ring' w,
    historical_head_roots
      (append_current_root_hash_to_historical time_time self db).1
    = Some ring' /\
    last ring' = Some (w, root_hash self) /\
    last_finished time_time < w /\
    ((forall ring e, historical_head_roots db = Some ring ->
        last ring = Some e -> e.1 <= last_finished time_time) ->
     w = last_finished time_time + W).
Proof.
  intros Ht HW HHL Hne.
  destruct (historical_head_roots db) as [[|first rest]|] eqn:Hring;
    [congruence | |].
  - destruct (last (first :: rest)) as [[latest r_last]|] eqn:Hlast;
      [| rewrite last_cons in Hlast; destruct (last rest); discriminate].
    destruct (decide (last_finished time_time < latest)) as [Hgt|Hle].
    + rewrite (promote_in_progress_run _ _ _ first rest latest r_last)
        by assumption.
      eexists. exists latest. split; [reflexivity |]. split; [| split].
      * rewrite last_lookup, length_insert.
        apply list_lookup_insert_eq. simpl. lia.
      * assumption.
      * intros Hold. specialize (Hold _ _ eq_refl Hlast). simpl in Hold. lia.
    + destruct (decide (latest < now time_time - HL * W)) as [Hold|Hret].
      * rewrite (promote_offline_run _ _ _ first rest latest r_last)
          by (assumption || lia).
        rewrite append_current_keeps_saved_ring.
        eexists. eexists. split; [reflexivity |].
        split; [apply last_snoc |]. split; [lia | reflexivity].
      * rewrite (promote_rollover_run _ _ _ first rest latest r_last)
          by (assumption || lia).
        rewrite append_current_keeps_saved_ring.
        eexists. eexists. split; [reflexivity |].
        rewrite py_del_prefix_keep_last by assumption.
        split; [| split; [| reflexivity]]; [| lia].
        rewrite last_drop_lt.
        -- rewrite app_assoc. apply last_snoc.
        -- rewrite !length_app. simpl. lia.
  - rewrite promote_first_run by assumption.
    eexists. eexists. split; [reflexivity |].
    split; [reflexivity |]. split; [lia | reflexivity].
Qed.

(** X1: promoting again at the same clock changes nothing.  When
    [append_current_root_hash_to_historical] has returned normally, a
    second call with the same handle and clock reading returns normally
    and leaves the store exactly as the first call left it. *)
Theorem promote_idempotent
    (time_time : Q) (self : ChainHeadDB) (db db1 : Store) :
  (0 <= time_time)%Q -> 0 < W -> 0 < HL ->
  append_current_root_hash_to_historical time_time self db = (db1, Ok tt) ->
  append_current_root_hash_to_historical time_time self db1 = (db1, Ok tt).
Proof.
  intros Ht HW HHL Hrun.
  assert (historical_head_roots db <> Some []) as Hne.
  { intros Hnil. rewrite (promote_empty_ring _ _ _ Hnil) in Hrun. discriminate. }
  destruct (promote_saved_last time_time self db Ht HW HHL Hne)
    as (ring' & w & Hring' & Hlast & Hw & _).
  rewrite Hrun in Hring'. simpl in Hring'.
  destruct ring' as [|first rest]; [discriminate |].
  rewrite (promote_in_progress_run _ _ _ first rest w (root_hash self))
    by assumption.
  rewrite list_insert_id by (rewrite <- last_lookup; exact Hlast).
  rewrite with_historical_roots_same by assumption. reflexivity.
Qed.

(** X2: [get_latest_timestamp] returns 0 on a store without historical
    list, and after a promotion it returns a window after the last
    finished one: the current window [last_finished + W], unless the
    stored latest window was already later than the last finished one,
    in which case it is that window. *)
Theorem latest_timestamp_after_promotion
    (time_time : Q) (self : ChainHeadDB) (db : Store) :
  (0 <= time_time)%Q -> 0 < W -> 0 < HL ->
  historical_head_roots db <> Some [] ->
  let db1 := (append_current_root_hash_to_historical time_time self db).1 in
  (historical_head_roots db = None -> get_latest_timestamp db = (db, Ok 0)) /\
  exists w,
    get_latest_timestamp db1 = (db1, Ok w) /\
    last_finished time_time < w /\
    (forall ring e, historical_head_roots db = Some ring ->
       last ring = Some e ->
       w = if decide (e.1 <= last_finished time_time)
           then last_finished time_time + W else e.1) /\
    (historical_head_roots db = None -> w = last_finished time_time + W).
Proof.
  intros Ht HW HHL Hne db1. split.
  - intros Hnone. unfold get_latest_timestamp.
    rewrite bind_run. unfold get_historical_root_hashes at 1.
    rewrite bind_run. unfold read_db at 1. unfold mret at 1, M_ret at 1.
    rewrite Hnone. reflexivity.
  - destruct (promote_saved_last time_time self db Ht HW HHL Hne)
      as (ring' & w & Hring' & Hlast & Hw & Hcur).
    fold db1 in Hring'. exists w. split; [| split; [exact Hw | split]].
    + unfold get_latest_timestamp.
      rewrite bind_run. unfold get_historical_root_hashes at 1.
      rewrite bind_run. unfold read_db at 1. unfold mret at 1, M_ret at 1.
      rewrite Hring'. rewrite bind_run. unfold lift at 1.
      rewrite (py_getitem_last _ _ Hlast). reflexivity.
    + intros ring e Hring He. destruct (decide _) as [Hle|Hgt].
      * apply Hcur. intros ring0 e0 Hring0 He0.
        rewrite Hring in Hring0. injection Hring0 as <-.
        rewrite He in He0. injection He0 as <-. exact Hle.
      * destruct ring as [|first rest]; [discriminate |].
        destruct e as [latest r_last].
        subst db1.
        rewrite (promote_in_progress_run _ _ _ first rest latest r_last)
          in Hring' by (assumption || (simpl in Hgt; lia)).
        simpl in Hring'. injection Hring' as <-.
        rewrite last_lookup, length_insert in Hlast.
        rewrite list_lookup_insert_eq in Hlast by (simpl; lia).
        injection Hlast as <-. reflexivity.
    + intros Hnone. apply Hcur. intros ring e Hring. congruence.
Qed.

(** X6: a call of [add_block_hash_to_timestamp] whose arguments are
    accepted does what a promotion does and nothing more: when the
    promotion raises, the call raises the same exception; when it
    returns, the call raises [TypeError], because the start of its range
    is a float.  In both cases the store is the one the promotion left,
    so no historical snapshot is ever rewritten. *)
Theorem late_block_update_is_promotion
    (time_time : Q) (self : ChainHeadDB) (address head_hash : bytes)
    (timestamp : Z) (db : Store) :
  (0 <= time_time)%Q -> 0 < W -> 0 < HL ->
  length address = 20%nat ->
  0 <= timestamp <= UINT_256_MAX ->
  timestamp <= now time_time ->
  timestamp mod W = 0 ->
  add_block_hash_to_timestamp time_time self address head_hash timestamp db
  = match append_current_root_hash_to_historical time_time self db with
    | (db1, Ok _) => (db1, Raise TypeError)
    | (db1, Raise e) => (db1, Raise e)
    end.
Proof.
  intros Ht HW HHL Ha Hu Hnow Hmod.
  unfold add_block_hash_to_timestamp.
  rewrite validate_canonical_address_ok, validate_uint256_ok by assumption.
  rewrite bind_run. unfold lift at 1.
  rewrite bind_run. unfold lift at 1, validate_is_bytes at 1.
  rewrite bind_run. unfold lift at 1.
  unfold now in Hnow.
  destruct (timestamp >? _) eqn:E1; [lia |].
  rewrite Hmod. change (negb (0 =? 0)) with false. cbv iota.
  rewrite bind_run.
  destruct (append_current_root_hash_to_historical time_time self db)
    as [db1 [[]|e]] eqn:Hrun; [| reflexivity].
  assert (historical_head_roots db <> Some []) as Hne.
  { intros Hnil. rewrite (promote_empty_ring _ _ _ Hnil) in Hrun. discriminate. }
  destruct (promote_saved_last time_time self db Ht HW HHL Hne)
    as (ring' & w & Hring' & Hlast & _).
  rewrite Hrun in Hring'. simpl in Hring'.
  destruct ring' as [|first rest]; [discriminate |].
  rewrite bind_run. unfold get_historical_root_hashes at 1.
  rewrite bind_run. unfold read_db at 1. unfold mret at 1, M_ret at 1.
  rewrite Hring'. rewrite bind_run. unfold lift at 1.
  rewrite py_getitem_first. reflexivity.
Qed.

(** *** Chronological windows dropped by a promotion *)

Lemma elem_of_range_step (a b step w : Z) :
  0 < step ->
  w ∈ range_step a b step <-> a <= w < b /\ (w - a) mod step = 0.
Proof.
  intros Hs. unfold range_step. rewrite list_elem_of_fmap. split.
  - intros (i & -> & Hi). apply elem_of_seq in Hi.
    assert (Z.of_nat i + 1 <= (b - a + step - 1) / step) as Hq by lia.
    pose proof (Z.mul_div_le (b - a + step - 1) step Hs).
    split; [nia |].
    replace (a + step * Z.of_nat i - a) with (Z.of_nat i * step) by lia.
    apply Z.mod_mul. lia.
  - intros [Hw Hmod]. apply Z.div_exact in Hmod; [| lia].
    assert (0 <= (w - a) / step) by (apply Z.div_pos; lia).
    exists (Z.to_nat ((w - a) / step)). split; [lia |].
    apply elem_of_seq.
    assert ((w - a) / step + 1 <= (b - a + step - 1) / step)
      by (apply Z.div_le_lower_bound; lia).
    lia.
Qed.

Lemma delete_loop_run (ws : list Z) (db : Store) :
  Forall (fun w => 0 <= w <= UINT_256_MAX /\ w mod W = 0) ws ->
  exists chrono,
    for_loop ws (fun i _ => delete_chronological_block_window i) tt db
    = (mkStore (trie_nodes db) (current_head_root db)
               (historical_head_roots db) chrono, Ok tt) /\
    forall w, chrono !! w
              = if decide (w ∈ ws) then None
                else chronological_windows db !! w.
Proof.
  revert db. induction ws as [|i ws IH]; intros db Hws.
  - exists (chronological_windows db). split; [destruct db; reflexivity |].
    intros w. destruct (decide (w ∈ [])) as [Hin|_]; [| reflexivity].
    apply elem_of_nil in Hin. contradiction.
  - apply Forall_cons in Hws as [[Hu Hmod] Hws].
    simpl. rewrite bind_run. unfold delete_chronological_block_window at 1.
    rewrite bind_run. unfold lift at 1. rewrite validate_uint256_ok by assumption.
    rewrite Hmod. change (negb (0 =? 0)) with false. cbv iota.
    unfold write_db at 1.
    match goal with
    | |- context [for_loop ws _ tt ?d] =>
        destruct (IH d Hws) as (chrono & -> & Hlook)
    end. simpl.
    exists chrono. split; [reflexivity |].
    intros w. rewrite Hlook. simpl.
    destruct (decide (w ∈ ws)) as [Hin|Hnin].
    + rewrite decide_True by (apply elem_of_cons; right; exact Hin). reflexivity.
    + destruct (decide (w = i)) as [->|Hne].
      * rewrite decide_True by (apply elem_of_cons; left; reflexivity).
        apply lookup_delete_eq.
      * rewrite decide_False
          by (intros Hc; apply elem_of_cons in Hc as [?|?]; contradiction).
        apply lookup_delete_ne. congruence.
Qed.

Lemma delete_dropped_windows_run
    (initial : Z) (first' : Z * Root) (rest' : list (Z * Root)) (db : Store) :
  0 < W -> 0 <= initial -> initial mod W = 0 ->
  first'.1 <= UINT_256_MAX + 1 ->
  exists chrono,
    delete_dropped_windows initial (first' :: rest') db
    = (mkStore (trie_nodes db) (current_head_root db)
               (historical_head_roots db) chrono, Ok tt) /\
    forall w, chrono !! w
              = if decide (initial <= w < first'.1 /\ (w - initial) mod W = 0)
                then None else chronological_windows db !! w.
Proof.
  intros HW Hi Hmod Hmax. unfold delete_dropped_windows.
  rewrite bind_run, bind_run. unfold lift at 1. rewrite py_getitem_first.
  unfold mret at 1, M_ret at 1.
  destruct (delete_loop_run (range_step initial (first'.1) W) db)
    as (chrono & Hrun & Hlook).
  { apply Forall_forall. intros w Hw.
    apply elem_of_range_step in Hw as [Hw Hwm]; [| assumption].
    split; [lia |].
    replace w with ((w - initial) + initial) by lia.
    rewrite Z.add_mod, Hwm, Hmod by lia. reflexivity. }
  exists chrono. split; [exact Hrun |].
  intros w. rewrite Hlook.
  destruct (decide (w ∈ range_step initial (first'.1) W)) as [Hin|Hnin].
  - rewrite decide_True by (apply elem_of_range_step in Hin; assumption).
    reflexivity.
  - rewrite decide_False; [reflexivity |].
    intros Hc. apply Hnin. apply elem_of_range_step; assumption.
Qed.

Lemma promote_offline_first
    (time_time : Q) (self : ChainHeadDB) (latest : Z) (r_last : Root) :
  0 < HL ->
  match map (fun i => (now time_time - HL * W + W * i, r_last)) (range 0 HL)
          ++ [(last_finished time_time + W, root_hash self)] with
  | [] => False
  | first' :: _ => first'.1 = now time_time - HL * W
  end.
Proof.
  intros HHL. unfold range.
  replace (Z.to_nat (HL - 0)) with (S (Z.to_nat (HL - 1))) by lia.
  simpl. lia.
Qed.

Lemma promote_rollover_first
    (time_time : Q) (self : ChainHeadDB)
    (first : Z * Root) (rest : list (Z * Root)) (latest : Z) (r_last : Root) :
  0 < W -> 0 < HL ->
  now time_time + W <= UINT_256_MAX ->
  Forall (fun e => e.1 <= UINT_256_MAX) (first :: rest) ->
  latest <= last_finished time_time <= now time_time ->
  exists first' rest',
    py_del_prefix (-1 * HL)
      ((first :: rest) ++ synthetic_entries time_time latest r_last
         ++ [(last_finished time_time + W, root_hash self)])
    = first' :: rest' /\
    first'.1 <= UINT_256_MAX.
Proof.
  intros HW HHL Hmax Hbound Hle.
  rewrite py_del_prefix_keep_last by assumption.
  set (appended := (first :: rest) ++ _).
  assert (Forall (fun e => e.1 <= UINT_256_MAX) appended) as Hall.
  { unfold appended. apply Forall_app. split; [exact Hbound |].
    apply Forall_app. split.
    - apply Forall_forall. intros e He.
      apply synthetic_entries_spec in He as (k & _ & Hk & ->); [| lia ..].
      simpl. lia.
    - apply Forall_singleton. simpl. lia. }
  assert (0 < length appended)%nat as Hlen
    by (unfold appended; simpl; lia).
  destruct (drop (length appended - Z.to_nat HL) appended)
    as [|first' rest'] eqn:Hdrop.
  - apply (f_equal length) in Hdrop. rewrite length_drop in Hdrop.
    simpl in Hdrop. lia.
  - exists first', rest'. split; [reflexivity |].
    assert (first' ∈ appended) as Hin.
    { apply (subseteq_drop (length appended - Z.to_nat HL)).
      rewrite Hdrop. apply elem_of_cons. left. reflexivity. }
    rewrite Forall_forall in Hall. apply Hall. exact Hin.
Qed.

(** X3: on a stored list that starts with an aligned, non-negative window
    and holds uint256 windows, a promotion returns normally, leaves the
    trie nodes and the saved current root alone, and deletes exactly the
    chronological windows [first + k * W] from the former first window
    up to, and not including, the first window of the list it saved;
    every other chronological window is kept. *)
Theorem promote_deletes_dropped_windows
    (time_time : Q) (self : ChainHeadDB) (db : Store) :
  (0 <= time_time)%Q -> 0 < W -> 0 < HL ->
  now time_time + W <= UINT_256_MAX ->
  (forall ring, historical_head_roots db = Some ring ->
     exists first rest, ring = first :: rest /\
       0 <= first.1 /\ first.1 mod W = 0 /\
       Forall (fun e => e.1 <= UINT_256_MAX) ring) ->
  let call := append_current_root_hash_to_historical time_time self db in
  call.2 = Ok tt /\
  trie_nodes call.1 = trie_nodes db /\
  current_head_root call.1 = current_head_root db /\
  exists ring',
    historical_head_roots call.1 = Some ring' /\
    (forall first rest first' w,
       historical_head_roots db = Some (first :: rest) ->
       head ring' = Some first' ->
       first.1 <= w < first'.1 -> (w - first.1) mod W = 0 ->
       chronological_windows call.1 !! w = None) /\
    (forall w,
       (forall first rest first',
          historical_head_roots db = Some (first :: rest) ->
          head ring' = Some first' ->
          ~ (first.1 <= w < first'.1 /\ (w - first.1) mod W = 0)) ->
       chronological_windows call.1 !! w = chronological_windows db !! w).
Proof.
  intros Ht HW HHL Hmax Hwf call.
  destruct (keeps_tries_append_current time_time self db) as [Hnodes Hcur].
  fold call in Hnodes, Hcur.
  assert (last_finished time_time <= now time_time) as Hlf.
  { unfold last_finished. pose proof (Z.mul_div_le (now time_time) W HW). lia. }
  split; [| split; [exact Hnodes | split; [exact Hcur |]]];
    destruct (historical_head_roots db) as [ring|] eqn:Hring.
  - destruct (Hwf ring eq_refl) as (first & rest & -> & H0 & Hal & Hbound).
    destruct (last (first :: rest)) as [[latest r_last]|] eqn:Hlast;
      [| rewrite last_cons in Hlast; destruct (last rest); discriminate].
    subst call.
    destruct (decide (last_finished time_time < latest)) as [Hgt|Hle].
    { rewrite (promote_in_progress_run _ _ _ first rest latest r_last)
        by assumption. reflexivity. }
    destruct (decide (latest < now time_time - HL * W)) as [Hold|Hret].
    + rewrite (promote_offline_run _ _ _ first rest latest r_last)
        by (assumption || lia).
      pose proof (promote_offline_first time_time self latest r_last HHL) as Hf.
      destruct (map _ (range 0 HL) ++ _) as [|first' rest'] eqn:Hnew;
        [contradiction |].
      destruct (delete_dropped_windows_run (first.1) first' rest'
                  (with_historical_roots (first' :: rest') db))
        as (chrono & -> & _); [assumption .. | lia | reflexivity].
    + rewrite (promote_rollover_run _ _ _ first rest latest r_last)
        by (assumption || lia).
      destruct (promote_rollover_first time_time self first rest latest r_last
                  HW HHL Hmax Hbound ltac:(lia))
        as (first' & rest' & -> & Hf).
      destruct (delete_dropped_windows_run (first.1) first' rest'
                  (with_historical_roots (first' :: rest') db))
        as (chrono & -> & _); [assumption .. | lia | reflexivity].
  - subst call. rewrite promote_first_run by assumption. reflexivity.
  - destruct (Hwf ring eq_refl) as (first & rest & -> & H0 & Hal & Hbound).
    destruct (last (first :: rest)) as [[latest r_last]|] eqn:Hlast;
      [| rewrite last_cons in Hlast; destruct (last rest); discriminate].
    subst call.
    destruct (decide (last_finished time_time < latest)) as [Hgt|Hle].
    { rewrite (promote_in_progress_run _ _ _ first rest latest r_last)
        by assumption.
      eexists. split; [reflexivity |]. split.
      - intros f r f' w [= <- <-] Hhead Hw _. exfalso.
        assert (f'.1 = first.1) as Hsame; [| lia].
        destruct rest as [|second rest].
        + simpl in Hhead, Hlast. injection Hlast as ->.
          injection Hhead as <-. reflexivity.
        + simpl in Hhead. injection Hhead as <-. reflexivity.
      - intros w _. reflexivity. }
    destruct (decide (latest < now time_time - HL * W)) as [Hold|Hret].
    + rewrite (promote_offline_run _ _ _ first rest latest r_last)
        by (assumption || lia).
      pose proof (promote_offline_first time_time self latest r_last HHL) as Hf.
      destruct (map _ (range 0 HL) ++ _) as [|first' rest'] eqn:Hnew;
        [contradiction |].
      destruct (delete_dropped_windows_run (first.1) first' rest'
                  (with_historical_roots (first' :: rest') db))
        as (chrono & -> & Hlook); [assumption .. | lia |].
      eexists. split; [reflexivity |]. split.
      * intros f r f' w [= <- <-] [= <-] Hw Hm. simpl.
        rewrite Hlook, decide_True by (split; assumption). reflexivity.
      * intros w Hout. simpl. rewrite Hlook, decide_False; [reflexivity |].
        apply (Hout first rest first'); reflexivity.
    + rewrite (promote_rollover_run _ _ _ first rest latest r_last)
        by (assumption || lia).
      destruct (promote_rollover_first time_time self first rest latest r_last
                  HW HHL Hmax Hbound ltac:(lia))
        as (first' & rest' & -> & Hf).
      destruct (delete_dropped_windows_run (first.1) first' rest'
                  (with_historical_roots (first' :: rest') db))
        as (chrono & -> & Hlook); [assumption .. | lia |].
      eexists. split; [reflexivity |]. split.
      * intros f r f' w [= <- <-] [= <-] Hw Hm. simpl.
        rewrite Hlook, decide_True by (split; assumption). reflexivity.
      * intros w Hout. simpl. rewrite Hlook, decide_False; [reflexivity |].
        apply (Hout first rest first'); reflexivity.
  - subst call. rewrite promote_first_run by assumption.
    eexists. split; [reflexivity |]. split.
    + intros f r f' w Hc. discriminate.
    + intros w _. reflexivity.
Qed.

(** *** The chronological index as a whole *)

(** X7: [add_block_hash_to_chronological_window] keeps the chronological
    index well formed on the timestamps whose float quotient is exact.
    For every timestamp with [0 <= timestamp] and
    [timestamp + W <= 2^53] the call returns normally, and if every
    stored window was aligned, sorted by timestamp and held only
    timestamps of that window, the same holds afterwards, whether the
    pair was inserted or ignored as too old. *)
Theorem chronological_index_invariant
    (time_time : Q) (self : ChainHeadDB) (head_hash : bytes) (timestamp : Z)
    (db : Store) :
  0 < W ->
  0 <= timestamp -> timestamp + W <= 2 ^ 53 ->
  chronological_index_wf db ->
  let call :=
    add_block_hash_to_chronological_window time_time self head_hash
      timestamp db in
  call.2 = Ok tt /\ chronological_index_wf call.1.
Proof.
  intros HW Hts Hsmall Hwf call. subst call.
  pose proof (below_2_53_is_uint256 timestamp HW Hts Hsmall) as Hu.
  destruct (decide (now time_time - HL * W < timestamp)) as [Hrecent|Hold].
  - rewrite chronological_insert_run by assumption.
    split; [reflexivity |]. simpl.
    unfold chronological_index_wf, with_chronological_window. simpl.
    destruct (floor_window_bounds timestamp W HW ltac:(lia)) as [Hb Hm].
    pose proof (Z.mul_succ_div_gt timestamp W HW) as Hup.
    apply map_Forall_insert_2; [| exact Hwf].
    split; [exact Hm |].
    destruct (chronological_windows db !! (timestamp / W * W))
      as [data|] eqn:Hdata.
    + destruct (Hwf _ _ Hdata) as (_ & Hsorted & Hin).
      destruct (chronological_insert_split data timestamp head_hash)
        as (before & after & Hsplit & Hafter & Hbefore & ->).
      subst data. split.
      * apply sorted_insert_split; assumption.
      * apply Forall_app in Hin as [Hin1 Hin2].
        apply Forall_app. split; [exact Hin1 |].
        apply Forall_cons. split; [simpl; lia | exact Hin2].
    + split.
      * unfold sorted_by_timestamp. repeat constructor.
      * apply Forall_singleton. simpl. lia.
  - unfold add_block_hash_to_chronological_window, now in *.
    rewrite bind_run. unfold lift at 1, validate_is_bytes at 1.
    rewrite bind_run. unfold lift at 1.
    rewrite validate_uint256_ok by assumption.
    destruct (timestamp >? _) eqn:E; [lia |].
    split; [reflexivity | exact Hwf].
Qed.

Lemma chronological_window_accepted (timestamp : Z) :
  0 <= timestamp <= UINT_256_MAX -> timestamp mod W = 0 ->
  (forall data db,
     save_chronological_block_window data timestamp db
     = (with_chronological_window timestamp data db, Ok tt)) /\
  (forall db,
     load_chronological_block_window timestamp db
     = (db, Ok (chronological_windows db !! timestamp))) /\
  (forall db,
     delete_chronological_block_window timestamp db
     = (mkStore (trie_nodes db) (current_head_root db)
                (historical_head_roots db)
                (delete timestamp (chronological_windows db)), Ok tt)).
Proof.
  intros Hu Hmod.
  unfold save_chronological_block_window, load_chronological_block_window,
    delete_chronological_block_window.
  repeat split; intros; rewrite bind_run; unfold lift at 1;
    rewrite validate_uint256_ok by assumption; rewrite Hmod; reflexivity.
Qed.

(** X8: the three accessors of a chronological window agree with one
    another on an aligned uint256 window.  What
    [save_chronological_block_window] stores is what
    [load_chronological_block_window] returns, other windows are not
    touched, after [delete_chronological_block_window] the window loads
    as absent, and deleting an absent window returns normally without
    changing the store. *)
Theorem chronological_window_round_trip
    (data : list (Z * bytes)) (timestamp : Z) (db : Store) :
  0 < W ->
  0 <= timestamp <= UINT_256_MAX ->
  timestamp mod W = 0 ->
  let saved := save_chronological_block_window data timestamp db in
  let deleted := delete_chronological_block_window timestamp saved.1 in
  saved.2 = Ok tt /\
  load_chronological_block_window timestamp saved.1
    = (saved.1, Ok (Some data)) /\
  (forall w, w <> timestamp ->
     chronological_windows saved.1 !! w = chronological_windows db !! w) /\
  deleted.2 = Ok tt /\
  load_chronological_block_window timestamp deleted.1
    = (deleted.1, Ok None) /\
  delete_chronological_block_window timestamp deleted.1
    = (deleted.1, Ok tt).
Proof.
  intros HW Hu Hmod saved deleted.
  destruct (chronological_window_accepted timestamp Hu Hmod)
    as (Hsave & Hload & Hdelete).
  subst deleted saved. rewrite Hsave. cbn [fst snd].
  rewrite Hdelete. cbn [fst snd]. rewrite !Hload, Hdelete.
  unfold with_chronological_window.
  cbn [chronological_windows trie_nodes current_head_root
       historical_head_roots].
  split; [reflexivity |]. split; [rewrite lookup_insert_eq; reflexivity |].
  split; [intros w Hne; apply lookup_insert_ne; congruence |].
  split; [reflexivity |]. split; [rewrite lookup_delete_eq; reflexivity |].
  rewrite delete_delete_eq. reflexivity.
Qed.

(** X9: the accessors of a chronological window refuse a timestamp that
    is not a window.  Saving, loading and deleting raise
    [ValidationError] on a timestamp outside [0, 2^256) and
    [InvalidHeadRootTimestamp] on a uint256 timestamp that is not a
    multiple of the window length; in both cases the store is left as it
    was. *)
Theorem chronological_window_rejects
    (data : list (Z * bytes)) (timestamp : Z) (db : Store) :
  0 < W ->
  ~ (0 <= timestamp <= UINT_256_MAX /\ timestamp mod W = 0) ->
  let e := if decide (0 <= timestamp <= UINT_256_MAX)
           then InvalidHeadRootTimestamp else ValidationError in
  save_chronological_block_window data timestamp db = (db, Raise e) /\
  load_chronological_block_window timestamp db = (db, Raise e) /\
  delete_chronological_block_window timestamp db = (db, Raise e).
Proof.
  intros HW Hbad e.
  unfold save_chronological_block_window, load_chronological_block_window,
    delete_chronological_block_window.
  rewrite !bind_run. unfold lift. subst e.
  destruct (decide (0 <= timestamp <= UINT_256_MAX)) as [Hu|Hu].
  - rewrite validate_uint256_ok by assumption.
    destruct (timestamp mod W =? 0) eqn:E; [exfalso; apply Hbad; lia |].
    repeat split.
  - unfold validate_uint256.
    destruct ((0 <=? timestamp) && (timestamp <=? UINT_256_MAX)) eqn:E.
    + apply andb_true_iff in E as [E1 E2]. lia.
    + repeat split.
Qed.

(** *** Reading through a dense list *)

Lemma progression_lookup (w0 : Z) (n i : nat) :
  (i < n)%nat -> progression w0 n !! i = Some (w0 + W * Z.of_nat i).
Proof.
  revert w0 i. induction n as [|n IH]; intros w0 i Hi; [lia |].
  destruct i as [|i]; simpl.
  - f_equal. lia.
  - rewrite IH by lia. f_equal. lia.
Qed.

Lemma progression_NoDup (w0 : Z) (n : nat) : 0 < W -> NoDup (progression w0 n).
Proof.
  intros HW. apply NoDup_alt. intros i j x Hi Hj.
  pose proof (lookup_lt_Some _ _ _ Hi) as Hli.
  pose proof (lookup_lt_Some _ _ _ Hj) as Hlj.
  rewrite progression_length in Hli, Hlj.
  rewrite progression_lookup in Hi, Hj by assumption.
  injection Hi as <-. injection Hj as Hj. nia.
Qed.

(** X10: on a stored list whose windows are aligned and one window
    length apart, [get_chain_head_hash_at_timestamp] never misses
    inside the list: for an accepted timestamp between the first and the
    latest window it reads the snapshot of the entry at index
    [(timestamp - first) / W], whose window is the timestamp; for an
    accepted timestamp after the latest window it reads the snapshot of
    the latest entry. *)
Theorem get_at_timestamp_on_dense_ring
    (time_time : Q) (self : ChainHeadDB) (address : bytes) (timestamp : Z)
    (db : Store) (first latest : Z * Root) (rest : list (Z * Root)) :
  0 < W ->
  length address = 20%nat ->
  0 <= timestamp <= UINT_256_MAX ->
  timestamp <= now time_time ->
  timestamp mod W = 0 ->
  historical_head_roots db = Some (first :: rest) ->
  windows_spaced (first :: rest) = true ->
  first.1 mod W = 0 ->
  last (first :: rest) = Some latest ->
  first.1 <= timestamp ->
  let call :=
    get_chain_head_hash_at_timestamp time_time self address timestamp db in
  (timestamp <= latest.1 ->
   exists e,
     (first :: rest) !! Z.to_nat ((timestamp - first.1) / W) = Some e /\
     e.1 = timestamp /\
     call = head_in_snapshot (e.2) address db) /\
  (latest.1 < timestamp ->
   call = head_in_snapshot (latest.2) address db).
Proof.
  intros HW Ha Hu Hnow Hmod Hring Hsp Hal Hlast Hfirst call.
  apply windows_spaced_progression in Hsp as [w0 Hw].
  assert (w0 = first.1) as ->.
  { simpl in Hw. injection Hw as Hw _. congruence. }
  assert (latest.1 = first.1 + W * Z.of_nat (length rest)) as Hlatest.
  { pose proof (f_equal last Hw) as Hl.
    rewrite fmap_last, Hlast in Hl. cbn [length] in Hl.
    rewrite progression_last in Hl. simpl in Hl. congruence. }
  assert (NoDup (first :: rest).*1) as Hnd
    by (rewrite Hw; apply progression_NoDup; exact HW).
  subst call.
  rewrite (get_at_timestamp_run _ _ _ _ _ first rest) by assumption.
  split.
  - intros Hle.
    assert ((timestamp - first.1) mod W = 0) as Hdiv.
    { rewrite Zminus_mod, Hmod, Hal. reflexivity. }
    apply Z.div_exact in Hdiv; [| lia].
    set (q := (timestamp - first.1) / W) in *.
    assert (0 <= q) by (apply Z.div_pos; lia).
    assert (Z.to_nat q < length (first :: rest))%nat as Hq
      by (cbn [length]; nia).
    destruct (lookup_lt_is_Some_2 _ _ Hq) as [e He].
    assert (e.1 = timestamp) as He1.
    { assert (progression (first.1) (length (first :: rest)) !! Z.to_nat q
              = Some (e.1)) as Hl
        by (rewrite <- Hw, list_lookup_fmap, He; reflexivity).
      rewrite progression_lookup in Hl by exact Hq.
      injection Hl as Hl. lia. }
    exists e. split; [exact He |]. split; [exact He1 |].
    rewrite (py_dict_lookup_NoDup _ timestamp (e.2)); [reflexivity | exact Hnd |].
    apply list_elem_of_lookup. exists (Z.to_nat q).
    rewrite He. f_equal. destruct e. simpl in *. congruence.
  - intros Hgt. rewrite py_dict_lookup_None, Hlast; [reflexivity |].
    intros r Hin.
    assert (timestamp ∈ (first :: rest).*1) as Hin'.
    { apply list_elem_of_fmap. exists (timestamp, r). split; [reflexivity | exact Hin]. }
    rewrite Hw in Hin'. apply list_elem_of_lookup in Hin' as [i Hi].
    pose proof (lookup_lt_Some _ _ _ Hi) as Hli.
    rewrite progression_length in Hli.
    rewrite progression_lookup in Hi by exact Hli.
    injection Hi as Hi. cbn [length] in Hli. nia.
Qed.

(** X11: the first promotion on a store.  Without a stored list,
    [append_current_root_hash_to_historical] returns normally and saves
    the single entry [(last_finished + W, self.root_hash)]; at the same
    clock reading [get_chain_head_hash_at_timestamp] then returns [None]
    for every accepted timestamp, since each of them precedes that
    window. *)
Theorem first_promotion_answers_nothing
    (time_time : Q) (self other : ChainHeadDB) (db : Store)
    (address : bytes) (timestamp : Z) :
  (0 <= time_time)%Q -> 0 < W ->
  historical_head_roots db = None ->
  length address = 20%nat ->
  0 <= timestamp <= UINT_256_MAX ->
  timestamp <= now time_time ->
  timestamp mod W = 0 ->
  let call := append_current_root_hash_to_historical time_time self db in
  call.2 = Ok tt /\
  historical_head_roots call.1
    = Some [(last_finished time_time + W, root_hash self)] /\
  get_chain_head_hash_at_timestamp time_time other address timestamp call.1
    = (call.1, Ok None).
Proof.
  intros Ht HW Hnone Ha Hu Hnow Hmod call. subst call.
  rewrite promote_first_run by assumption. cbn [fst snd].
  split; [reflexivity |]. split; [reflexivity |].
  rewrite get_at_timestamp_no_ring by assumption.
  cbn [with_historical_roots historical_head_roots fst].
  assert (now time_time < last_finished time_time + W) as Hlt.
  { unfold last_finished.
    pose proof (Z.mul_succ_div_gt (now time_time) W HW). lia. }
  destruct (timestamp <? last_finished time_time + W) eqn:E; [reflexivity | lia].
Qed.

End ChainHead.

(** ** The scenarios of section 8, with [W = 1000] and [HISTORY_LEN = 4] *)

(** C4: in the rollover case (a list is stored, its latest window is not
    after the last finished window and not older than the retention span)
    [append_current_root_hash_to_historical] saves the stored list
    followed by one entry for every window [latest + k * W], [k >= 1], up
    to the last finished window, each with the root of the former last
    entry, followed by [(current_window, self.root_hash)], the whole
    trimmed from the front (to its last [HL] entries).  With [W = 1000],
    [HL = 4], the list [[(11000, R0)]] and the clock at 12500, writing
    [B -> H2] through a handle on [R0] and persisting it with
    [save_current_root_hash=True] returns normally and leaves the list
    [[(11000, R0); (12000, R0); (13000, R1)]], [R1] being the root of the
    snapshot at [R0] updated with [B -> H2]. *)
Theorem promote_rollover :
  (forall (Root : Type) `(Countable Root) (W HL : Z) (time_time : Q)
          (self : ChainHeadDB) (db : Store)
          (first : Z * Root) (rest : list (Z * Root))
          (latest : Z) (r_last : Root),
     (0 <= time_time)%Q -> 0 < W ->
     historical_head_roots db = Some (first :: rest) ->
     last (first :: rest) = Some (latest, r_last) ->
     latest <= last_finished W time_time ->
     now time_time - HL * W <= latest ->
     let synthetic := synthetic_entries W time_time latest r_last in
     let appended :=
       (first :: rest) ++ synthetic
         ++ [(last_finished W time_time + W, root_hash self)] in
     (forall e, e ∈ synthetic <->
        exists k, 1 <= k /\ latest + k * W <= last_finished W time_time /\
                  e = (latest + k * W, r_last)) /\
     historical_head_roots
       (append_current_root_hash_to_historical W HL time_time self db).1
     = Some (py_del_prefix (-1 * HL) appended) /\
     (0 < HL ->
      py_del_prefix (-1 * HL) appended
      = drop (length appended - Z.to_nat HL) appended)) /\
  (forall (Root : Type) `(Countable Root) (root_of : gmap bytes bytes -> Root)
          (db : Store) (R0 : Root) (s0 : gmap bytes bytes),
     historical_head_roots db = Some [(11000, R0)] ->
     trie_contents root_of (new_ChainHeadDB R0) db = (db, Ok s0) ->
     let R1 := root_of (<[address_B := hash_H2]> s0) in
     exists self db',
       set_chain_head_hash root_of (new_ChainHeadDB R0) address_B hash_H2 db
         = (db, Ok self) /\
       root_hash self = R1 /\
       (persist 1000 4 12500 self true db).1 = db' /\
       (persist 1000 4 12500 self true db).2
         = Ok (mkChainHeadDB R1 ∅ (cache self)) /\
       historical_head_roots db'
         = Some [(11000, R0); (12000, R0); (13000, R1)]).
Proof.
  split.
  - intros. apply promote_rollover_general; assumption.
  - intros Root ? ? root_of db R0 s0 Hring Hs R1.
    set (self := mkChainHeadDB R1
                   (<[R1 := <[address_B := hash_H2]> s0]> ∅)
                   (<[address_B := hash_H2]> ∅)).
    set (db1 := mkStore (batch self ∪ trie_nodes db) (Some R1)
                        (historical_head_roots db) (chronological_windows db)).
    assert (persist 1000 4 12500 self true db
            = (with_historical_roots
                 [(11000, R0); (12000, R0); (13000, R1)] db1,
               Ok (mkChainHeadDB R1 ∅ (cache self)))) as Hp.
    { unfold persist, batch_commit, save_current_root_hash.
      rewrite !bind_run. unfold write_db at 1. unfold mret at 1, M_ret at 1.
      rewrite !bind_run. unfold write_db at 1.
      cbn [root_hash batch cache trie_nodes current_head_root
           historical_head_roots chronological_windows].
      fold db1.
      rewrite (promote_rollover_run 1000 4 12500 _ db1 (11000, R0) [] 11000 R0);
        [| discriminate | lia | exact Hring | reflexivity
         | vm_compute; discriminate | vm_compute; discriminate].
      change (synthetic_entries 1000 12500 11000 R0) with [(12000, R0)].
      change (last_finished 1000 12500) with 12000.
      reflexivity. }
    exists self, (with_historical_roots
                    [(11000, R0); (12000, R0); (13000, R1)] db1).
    rewrite Hp. split; [| split; [| split; [| split]]]; try reflexivity.
    apply set_chain_head_hash_run; [reflexivity | exact Hs].
Qed.

(** C6, as amended: when the window [w] that contains the timestamp
    holds a list, the timestamp is above [now - HL * W] and
    [timestamp + W <= 2^53], [add_block_hash_to_chronological_window]
    writes back that list with the pair inserted right after the last
    entry whose timestamp is not above the new one, and in front when
    there is none: the list splits as [before ++ after], everything in
    [after] is strictly later, the last entry of [before] is not later,
    and the stored list is [before ++ (timestamp, hash) :: after]; a list
    sorted by timestamp stays sorted, a new pair going after the pairs
    that have its timestamp.  With [W = 1000], [HL = 4] and the clock at
    10000, inserting [(11250, H_a)], [(11100, H_b)] and [(11900, H_c)]
    into the empty index leaves
    [[(11100, H_b); (11250, H_a); (11900, H_c)]] under window 11000. *)
Theorem chronological_insert_sorted :
  (forall (Root : Type) `(Countable Root) (W HL : Z) (time_time : Q)
          (self : @ChainHeadDB Root _ _) (head_hash : bytes) (timestamp w : Z)
          (db : @Store Root _ _) (data : list (Z * bytes)),
     0 < W ->
     0 <= timestamp -> timestamp + W <= 2 ^ 53 ->
     now time_time - HL * W < timestamp ->
     w mod W = 0 -> w <= timestamp < w + W ->
     chronological_windows db !! w = Some data ->
     exists before after,
       data = before ++ after /\
       (forall e, e ∈ after -> timestamp < e.1) /\
       (before = [] \/ exists e, last before = Some e /\ e.1 <= timestamp) /\
       add_block_hash_to_chronological_window W HL time_time self head_hash
         timestamp db
       = (with_chronological_window w
            (before ++ (timestamp, head_hash) :: after) db, Ok tt) /\
       (sorted_by_timestamp data ->
        sorted_by_timestamp (before ++ (timestamp, head_hash) :: after))) /\
  (forall (Root : Type) `(Countable Root) (self : ChainHeadDB)
          (nodes : gmap Root (gmap bytes bytes)) (current : option Root)
          (ring : option (list (Z * Root))) (H_a H_b H_c : bytes),
     let add := add_block_hash_to_chronological_window 1000 4 10000 self in
     let db0 := mkStore nodes current ring ∅ in
     let db1 := (add H_a 11250 db0).1 in
     let db2 := (add H_b 11100 db1).1 in
     let db3 := (add H_c 11900 db2).1 in
     (add H_a 11250 db0).2 = Ok tt /\
     (add H_b 11100 db1).2 = Ok tt /\
     (add H_c 11900 db2).2 = Ok tt /\
     chronological_windows db3 !! 11000
     = Some [(11100, H_b); (11250, H_a); (11900, H_c)]).
Proof.
  split.
  - intros. apply chronological_insert_general; assumption.
  - intros Root ? ? self nodes current ring H_a H_b H_c add db0 db1 db2 db3.
    assert (forall h ts db, 0 <= ts <= 20000 -> 6000 < ts ->
              add h ts db
              = (with_chronological_window (ts / 1000 * 1000)
                   match chronological_windows db !! (ts / 1000 * 1000) with
                   | None => [(ts, h)]
                   | Some data =>
                       match scan_back data ts (length data) with
                       | Some pos => py_insert pos (ts, h) data
                       | None => py_insert 0 (ts, h) data
                       end
                   end db, Ok tt)) as Hrun.
    { intros h ts db Hts Hrecent. apply chronological_insert_run; [lia | lia | |].
      - apply Z.le_trans with 21000; [lia | vm_compute; discriminate].
      - change (now 10000 - 4 * 1000) with 6000. assumption. }
    assert (db1 = with_chronological_window 11000 [(11250, H_a)] db0) as E1.
    { unfold db1. rewrite Hrun by lia. reflexivity. }
    assert (db2 = with_chronological_window 11000
                    [(11100, H_b); (11250, H_a)] db1) as E2.
    { unfold db2. rewrite Hrun by lia.
      change (11100 / 1000 * 1000) with 11000.
      rewrite E1. unfold with_chronological_window at 2.
      cbn [chronological_windows]. rewrite lookup_insert_eq. reflexivity. }
    assert (db3 = with_chronological_window 11000
                    [(11100, H_b); (11250, H_a); (11900, H_c)] db2) as E3.
    { unfold db3. rewrite Hrun by lia.
      change (11900 / 1000 * 1000) with 11000.
      rewrite E2. unfold with_chronological_window at 2.
      cbn [chronological_windows]. rewrite lookup_insert_eq. reflexivity. }
    rewrite !Hrun by lia. split; [reflexivity |]. split; [reflexivity |].
    split; [reflexivity |].
    rewrite E3. unfold with_chronological_window.
    cbn [chronological_windows]. apply lookup_insert_eq.
Qed.

(** C6, counterexample: a timestamp that falls in a stored, sorted window
    is not inserted when it is not above [now - HL * W].  With [W = 1000],
    [HL = 4], the clock at 10000 and the window 5000 holding
    [[(5100, H1)]], the call with the timestamp 5500 returns normally
    and leaves the store as it was: the window does not hold
    [[(5100, H1); (5500, H2)]], and no split of the stored list describes
    what was written. *)
Lemma chronological_insert_sorted_counterexample :
  let db := @mkStore Z _ _ ∅ None None {[5000 := [(5100, hash_H1)]]} in
  let call :=
    add_block_hash_to_chronological_window 1000 4 10000
      (mkChainHeadDB 7 ∅ ∅) hash_H2 5500 db in
  (0 < 1000 /\ 0 <= 5500 <= UINT_256_MAX /\
   5000 mod 1000 = 0 /\ 5000 <= 5500 < 5000 + 1000 /\
   chronological_windows db !! 5000 = Some [(5100, hash_H1)] /\
   sorted_by_timestamp [(5100, hash_H1)]) /\
  call = (db, Ok tt) /\
  chronological_windows call.1 !! 5000
    <> Some [(5100, hash_H1); (5500, hash_H2)] /\
  ~ (exists before after,
       [(5100, hash_H1)] = before ++ after /\
       call = (with_chronological_window 5000
                 (before ++ (5500, hash_H2) :: after) db, Ok tt)).
Proof.
  intros db call.
  assert (call = (db, Ok tt)) as Hcall by (vm_compute; reflexivity).
  split; [| split; [exact Hcall | split]].
  - split; [lia |]. split; [split; [lia | vm_compute; discriminate] |].
    split; [reflexivity |]. split; [lia |]. split; [reflexivity |].
    unfold sorted_by_timestamp. repeat constructor.
  - rewrite Hcall. vm_compute. discriminate.
  - intros (before & after & Hsplit & Hwritten).
    rewrite Hcall in Hwritten.
    apply (f_equal (fun r => chronological_windows r.1 !! 5000)) in Hwritten.
    unfold with_chronological_window in Hwritten.
    cbn [chronological_windows fst] in Hwritten.
    rewrite lookup_insert_eq in Hwritten.
    assert (chronological_windows db !! 5000 = Some [(5100, hash_H1)])
      as Hstored by reflexivity.
    rewrite Hstored in Hwritten. injection Hwritten as Hdb.
    apply (f_equal length) in Hsplit, Hdb.
    rewrite length_app in Hsplit, Hdb. simpl in Hsplit, Hdb. lia.
Qed.

(** C10: the claim fails on timestamps far in the future, because
    [timestamp / W] is a float.  With [W = 1000], [HL = 4] and the clock
    at 10000, the largest uint256 timestamp is above [now - HL * W] and
    its window [timestamp / W * W] is a uint256, but the float quotient
    is [2^256 / 1000] rounded, the window [int(timestamp / W) * W] is
    above [2^256 - 1], and [load_chronological_block_window] raises
    [ValidationError]: nothing is stored.  At [2^64 - 1] the call returns
    normally, having written the pair under the window
    18446744073709552000, which is after the timestamp, and not under
    [timestamp / W * W = 18446744073709551000]. *)
Theorem chronological_far_future_timestamp_fails :
  forall (Root : Type) `(Countable Root) (self : ChainHeadDB)
         (head_hash : bytes) (db : @Store Root _ _),
    let add :=
      add_block_hash_to_chronological_window 1000 4 10000 self head_hash in
    (0 <= UINT_256_MAX <= UINT_256_MAX /\
     now 10000 - 4 * 1000 < UINT_256_MAX /\
     0 <= UINT_256_MAX / 1000 * 1000 <= UINT_256_MAX) /\
    add UINT_256_MAX db = (db, Raise ValidationError) /\
    (now 10000 - 4 * 1000 < 2 ^ 64 - 1 /\
     (2 ^ 64 - 1) / 1000 * 1000 = 18446744073709551000) /\
    add (2 ^ 64 - 1) db
    = (with_chronological_window 18446744073709552000
         match chronological_windows db !! 18446744073709552000 with
         | None => [(2 ^ 64 - 1, head_hash)]
         | Some data =>
             match scan_back data (2 ^ 64 - 1) (length data) with
             | Some pos => py_insert pos (2 ^ 64 - 1, head_hash) data
             | None => py_insert 0 (2 ^ 64 - 1, head_hash) data
             end
         end db, Ok tt).
Proof.
  intros Root ? ? self head_hash db add.
  split; [| split; [| split]].
  - split; [vm_compute; split; discriminate |].
    split; [vm_compute; reflexivity | vm_compute; split; discriminate].
  - unfold add, add_block_hash_to_chronological_window.
    rewrite bind_run. unfold lift at 1, validate_is_bytes at 1.
    rewrite bind_run. unfold lift at 1.
    rewrite validate_uint256_ok by (vm_compute; split; discriminate).
    replace (UINT_256_MAX >? py_int (PyFloat 10000) - 4 * 1000) with true
      by (vm_compute; reflexivity).
    destruct (py_truediv_int UINT_256_MAX 1000) as [quotient|e] eqn:Hq;
      vm_compute in Hq; [| discriminate].
    injection Hq as <-.
    rewrite bind_run. unfold lift at 1.
    unfold load_chronological_block_window.
    rewrite !bind_run. unfold lift at 1.
    replace (validate_uint256 _) with (@Raise unit ValidationError)
      by (vm_compute; reflexivity).
    reflexivity.
  - split; vm_compute; reflexivity.
  - unfold add, add_block_hash_to_chronological_window.
    rewrite bind_run. unfold lift at 1, validate_is_bytes at 1.
    rewrite bind_run. unfold lift at 1.
    rewrite validate_uint256_ok by (vm_compute; split; discriminate).
    replace (2 ^ 64 - 1 >? py_int (PyFloat 10000) - 4 * 1000) with true
      by (vm_compute; reflexivity).
    destruct (py_truediv_int (2 ^ 64 - 1) 1000) as [quotient|e] eqn:Hq;
      vm_compute in Hq; [| discriminate].
    injection Hq as <-.
    rewrite bind_run. unfold lift at 1.
    change (py_int (PyFloat (18446744073709552 # 1)) * 1000)
      with 18446744073709552000.
    unfold load_chronological_block_window, save_chronological_block_window.
    unfold mbind, M_bind, lift, read_db, write_db, mret, M_ret.
    rewrite validate_uint256_ok by (vm_compute; split; discriminate).
    change (18446744073709552000 mod 1000 =? 0) with true.
    reflexivity.
Qed.

(** The promotion of scenario S4: the list [[(1000, R0)]], the clock at
    10000 and a handle on [R0]. *)
Lemma promote_offline_scenario
    (Root : Type) `(Countable Root) (R0 : Root)
    (nodes batch : gmap Root (gmap bytes bytes)) (current : option Root)
    (chrono : gmap Z (list (Z * bytes))) (cache : gmap bytes bytes) :
  let db := mkStore nodes current (Some [(1000, R0)]) chrono in
  let call :=
    append_current_root_hash_to_historical 1000 4 10000
      (mkChainHeadDB R0 batch cache) db in
  call.2 = Ok tt /\
  historical_head_roots call.1
  = Some [(6000, R0); (7000, R0); (8000, R0); (9000, R0); (11000, R0)].
Proof.
  intros db call. subst call.
  rewrite (promote_offline_run 1000 4 10000 _ db (1000, R0) [] 1000 R0);
    [| discriminate | lia | reflexivity | reflexivity
     | vm_compute; discriminate | vm_compute; reflexivity ].
  change (now 10000 - 4 * 1000) with 6000.
  change (last_finished 1000 10000) with 10000.
  split; reflexivity.
Qed.

(** C2: scenario S4 on the code.  With [W = 1000], [HL = 4], the list
    [[(1000, R0)]] and the clock at 10000 the promotion returns normally
    and saves five entries with root [R0], but their windows are 6000,
    7000, 8000, 9000 and 11000: the four synthetic entries start at
    [now - HL * W] and the window 10000 is missing, so the windows are not
    the expected 7000, 8000, 9000, 10000, 11000. *)
Theorem promote_offline_windows
    (Root : Type) `(Countable Root) (R0 : Root)
    (nodes batch : gmap Root (gmap bytes bytes)) (current : option Root)
    (chrono : gmap Z (list (Z * bytes))) (cache : gmap bytes bytes) :
  let db := mkStore nodes current (Some [(1000, R0)]) chrono in
  let call :=
    append_current_root_hash_to_historical 1000 4 10000
      (mkChainHeadDB R0 batch cache) db in
  call.2 = Ok tt /\
  (exists ring,
     historical_head_roots call.1 = Some ring /\
     length ring = 5%nat /\
     ring.*2 = replicate 5 R0 /\
     ring.*1 = [6000; 7000; 8000; 9000; 11000] /\
     ring.*1 <> [7000; 8000; 9000; 10000; 11000]).
Proof.
  intros db call.
  destruct (promote_offline_scenario Root _ R0 nodes batch current chrono cache)
    as [Hok Hring].
  split; [exact Hok |]. eexists. split; [exact Hring |].
  repeat split. discriminate.
Qed.

(** C3: the same promotion breaks the invariant of the historical list.
    The stored list [[(1000, R0)]] satisfies it; the list saved by
    [append_current_root_hash_to_historical] does not, since the windows
    9000 and 11000 of its last two entries are two window lengths apart. *)
Theorem promote_offline_breaks_invariant
    (Root : Type) `(Countable Root) (R0 : Root)
    (nodes batch : gmap Root (gmap bytes bytes)) (current : option Root)
    (chrono : gmap Z (list (Z * bytes))) (cache : gmap bytes bytes) :
  let db := mkStore nodes current (Some [(1000, R0)]) chrono in
  let call :=
    append_current_root_hash_to_historical 1000 4 10000
      (mkChainHeadDB R0 batch cache) db in
  ring_invariant 1000 4 [(1000, R0)] = true /\
  (exists ring,
     historical_head_roots call.1 = Some ring /\
     windows_spaced 1000 ring = false /\
     ring_invariant 1000 4 ring = false).
Proof.
  intros db call.
  destruct (promote_offline_scenario Root _ R0 nodes batch current chrono cache)
    as [_ Hring].
  split; [reflexivity |]. eexists. split; [exact Hring |].
  split; reflexivity.
Qed.

(** The bounds of the loop at the input of the next theorem, were the
    start an integer: [num_increments] counts the windows from
    [start_timestamp] and is 1, the index of the window 10000 is 1, and
    [range(1, 1)] is empty. *)
Lemma late_block_update_loop_bounds :
  last_finished 1000 10000 = 10000 /\
  py_int (py_add (py_truediv (PyInt (10000 - 10000)) (PyInt 1000)) (PyInt 1))
  = 1 /\
  py_int (py_truediv (PyInt (10000 - 9000)) (PyInt 1000)) = 1 /\
  range 1 1 = [].
Proof. repeat split. Qed.

(** C1: the late-block update on the code.  With [W = 1000], [HL = 4], the
    clock at 10000, the list [[(9000, R0); (10000, R0); (11000, R1)]] where
    [R0] is the empty snapshot, and a handle on [R1],
    [add_block_hash_to_timestamp(A, H2, 10000)] has a valid timestamp (not
    after [now], aligned, not before the first window) and yet raises
    [TypeError]; the stored list is left as it was, and the snapshot of
    its entry for the window 10000 still has no head for [A]. *)
Theorem late_block_update_fails
    (Root : Type) `(Countable Root) (root_of : gmap bytes bytes -> Root)
    (nodes : gmap Root (gmap bytes bytes)) (current : option Root)
    (chrono : gmap Z (list (Z * bytes))) :
  let R0 := BLANK_HASH root_of in
  let R1 := root_of {[address_A := hash_H1]} in
  let ring := [(9000, R0); (10000, R0); (11000, R1)] in
  let db := mkStore nodes current (Some ring) chrono in
  let call :=
    add_block_hash_to_timestamp root_of 1000 4 10000 (new_ChainHeadDB R1)
      address_A hash_H2 10000 db in
  call = (db, Raise TypeError) /\
  historical_head_roots call.1 = Some ring /\
  (10000, R0) ∈ ring /\
  head_in_snapshot root_of R0 address_A call.1
  = (db, Ok None).
Proof.
  intros R0 R1 ring db call.
  assert (call = (db, Raise TypeError)) as Hcall.
  { subst call. unfold add_block_hash_to_timestamp.
    rewrite bind_run. unfold lift at 1.
    rewrite validate_canonical_address_ok by reflexivity.
    rewrite bind_run. unfold lift at 1, validate_is_bytes at 1.
    rewrite bind_run. unfold lift at 1.
    change (validate_uint256 10000) with (Ok tt).
    change (10000 >? py_int (PyFloat 10000)) with false.
    change (negb (10000 mod 1000 =? 0)) with false. cbv iota.
    rewrite bind_run.
    rewrite (promote_in_progress_run 1000 4 10000 _ db (9000, R0)
               [(10000, R0); (11000, R1)] 11000 R1);
      [| discriminate | lia | reflexivity | reflexivity
       | vm_compute; reflexivity].
    change (with_historical_roots _ db) with db.
    rewrite bind_run. unfold get_historical_root_hashes at 1.
    rewrite bind_run. unfold read_db at 1. unfold mret at 1, M_ret at 1.
    cbn [historical_head_roots db].
    reflexivity. }
  rewrite Hcall. split; [reflexivity |]. split; [reflexivity |].
  split.
  - apply elem_of_cons. right. apply elem_of_cons. left. reflexivity.
  - unfold head_in_snapshot, get_chain_head_hash.
    rewrite validate_canonical_address_ok by reflexivity.
    rewrite !bind_run. unfold lift at 1. unfold trie_cache_get.
    cbn [cache new_ChainHeadDB fst snd]. rewrite lookup_empty.
    rewrite bind_run. unfold R0. rewrite trie_contents_blank.
    rewrite lookup_empty. reflexivity.
Qed.

(** ** Instances on concrete inputs

    The root type is the snapshot itself and [root_of] the identity, which
    is injective; [W = 1000] and [HL = 4] as in section 8 of the
    specification. *)

Lemma chronological_too_old_is_noop_witness :
  (0 <= 5000 <= UINT_256_MAX /\ 5000 <= now 10000 - 4 * 1000) /\
  add_block_hash_to_chronological_window 1000 4 10000
    (new_ChainHeadDB (BLANK_HASH id)) hash_H1 5000
    (@mkStore (gmap bytes bytes) _ _ ∅ None None ∅)
  = (mkStore ∅ None None ∅, Ok tt).
Proof.
  assert (0 <= 5000 <= UINT_256_MAX) as Hu.
  { split; [lia | vm_compute; discriminate]. }
  assert (5000 <= now 10000 - 4 * 1000) as Hold.
  { vm_compute. discriminate. }
  split; [split; assumption |].
  exact (chronological_too_old_is_noop 1000 4 10000
           (new_ChainHeadDB (BLANK_HASH id)) hash_H1 5000
           (mkStore ∅ None None ∅) Hu Hold).
Defined.

Lemma chronological_accepts_future_timestamps_witness :
  (0 < 1000 /\ 0 <= 987654321 /\ 987654321 + 1000 <= 2 ^ 53
   /\ now 10000 - 4 * 1000 < 987654321) /\
  exists data,
    add_block_hash_to_chronological_window 1000 4 10000
      (new_ChainHeadDB (BLANK_HASH id)) hash_H1 987654321
      (@mkStore (gmap bytes bytes) _ _ ∅ None None ∅)
    = (with_chronological_window 987654000 data (mkStore ∅ None None ∅),
       Ok tt) /\
    (987654321, hash_H1) ∈ data.
Proof.
  assert (0 < 1000) as HW by lia.
  assert (0 <= 987654321) as Hts by lia.
  assert (987654321 + 1000 <= 2 ^ 53) as Hsmall by lia.
  assert (now 10000 - 4 * 1000 < 987654321) as Hrecent.
  { vm_compute. reflexivity. }
  split; [exact (conj HW (conj Hts (conj Hsmall Hrecent))) |].
  exact (proj1 (chronological_accepts_future_timestamps id 1000 4 10000
                  (new_ChainHeadDB (BLANK_HASH id)) address_A hash_H1
                  987654321 (mkStore ∅ None None ∅) HW Hts Hsmall Hrecent)).
Defined.


Lemma read_own_write_witness :
  (length address_A = 20%nat /\
   trie_contents id (new_ChainHeadDB (BLANK_HASH id))
     (@mkStore (gmap bytes bytes) _ _ ∅ None None ∅)
   = (mkStore ∅ None None ∅, Ok ∅)) /\
  exists self',
    set_chain_head_hash id (new_ChainHeadDB (BLANK_HASH id)) address_A hash_H1
      (@mkStore (gmap bytes bytes) _ _ ∅ None None ∅)
    = (mkStore ∅ None None ∅, Ok self') /\
    get_chain_head_hash id self' address_A (mkStore ∅ None None ∅)
    = (mkStore ∅ None None ∅, Ok (self', Some hash_H1)).
Proof.
  split; [split; [reflexivity | apply trie_contents_blank] |].
  exact (read_own_write id (new_ChainHeadDB (BLANK_HASH id)) address_A hash_H1
           (mkStore ∅ None None ∅) ∅ eq_refl (trie_contents_blank id _)).
Defined.

Lemma persist_load_round_trip_witness :
  (0 < 1000 /\ length address_A = 20%nat /\
   trie_contents id (new_ChainHeadDB (BLANK_HASH id))
     (@mkStore (gmap bytes bytes) _ _ ∅ None None ∅)
   = (mkStore ∅ None None ∅, Ok ∅)) /\
  exists self,
    set_chain_head_hash id (new_ChainHeadDB (BLANK_HASH id)) address_A hash_H1
      (@mkStore (gmap bytes bytes) _ _ ∅ None None ∅)
    = (mkStore ∅ None None ∅, Ok self) /\
    exists loaded loaded',
      load_from_saved_root_hash id
        (persist 1000 4 10000 self true (mkStore ∅ None None ∅)).1
      = ((persist 1000 4 10000 self true (mkStore ∅ None None ∅)).1,
         Ok loaded) /\
      root_hash loaded = root_hash self /\
      get_chain_head_hash id loaded address_A
        (persist 1000 4 10000 self true (mkStore ∅ None None ∅)).1
      = ((persist 1000 4 10000 self true (mkStore ∅ None None ∅)).1,
         Ok (loaded', Some hash_H1)).
Proof.
  assert (0 < 1000) as HW by lia.
  split; [split; [assumption | split; [reflexivity | apply trie_contents_blank]] |].
  destruct (persist_load_round_trip id _ 1000 4 10000 (BLANK_HASH id)
              (mkStore ∅ None None ∅) ∅ address_A hash_H1 HW eq_refl
              (trie_contents_blank id _))
    as [(self & Hset & loaded & Hload & _ & Hroot & loaded' & Hget) _].
  exists self. split; [exact Hset |].
  exists loaded, loaded'. split; [exact Hload |]. split; [exact Hroot | exact Hget].
Defined.

Lemma chronological_insert_sorted_witness :
  (0 < 1000 /\ 0 <= 11100 /\ 11100 + 1000 <= 2 ^ 53
   /\ now 10000 - 4 * 1000 < 11100
   /\ 11000 mod 1000 = 0 /\ 11000 <= 11100 < 11000 + 1000
   /\ chronological_windows
        (@mkStore (gmap bytes bytes) _ _ ∅ None None
           {[11000 := [(11250, hash_H1)]]}) !! 11000
      = Some [(11250, hash_H1)]) /\
  exists before after,
    [(11250, hash_H1)] = before ++ after /\
    add_block_hash_to_chronological_window 1000 4 10000
      (new_ChainHeadDB (BLANK_HASH id)) hash_H2 11100
      (@mkStore (gmap bytes bytes) _ _ ∅ None None
         {[11000 := [(11250, hash_H1)]]})
    = (with_chronological_window 11000 (before ++ (11100, hash_H2) :: after)
         (mkStore ∅ None None {[11000 := [(11250, hash_H1)]]}), Ok tt).
Proof.
  assert (0 < 1000) as HW by lia.
  assert (0 <= 11100) as Hts by lia.
  assert (11100 + 1000 <= 2 ^ 53) as Hsmall by lia.
  assert (now 10000 - 4 * 1000 < 11100) as Hrecent.
  { vm_compute. reflexivity. }
  assert (11000 mod 1000 = 0) as Hmod by reflexivity.
  assert (11000 <= 11100 < 11000 + 1000) as Hin by lia.
  assert (chronological_windows
            (@mkStore (gmap bytes bytes) _ _ ∅ None None
               {[11000 := [(11250, hash_H1)]]}) !! 11000
          = Some [(11250, hash_H1)]) as Hdata.
  { apply lookup_singleton_eq. }
  split;
    [exact (conj HW (conj Hts (conj Hsmall (conj Hrecent
              (conj Hmod (conj Hin Hdata)))))) |].
  destruct (proj1 chronological_insert_sorted (gmap bytes bytes) _ _ 1000 4
              10000%Q (new_ChainHeadDB (BLANK_HASH id)) hash_H2 11100 11000
              (mkStore ∅ None None {[11000 := [(11250, hash_H1)]]})
              [(11250, hash_H1)] HW Hts Hsmall Hrecent Hmod Hin Hdata)
    as (before & after & Hsplit & _ & _ & Hrun & _).
  exists before, after. split; [exact Hsplit | exact Hrun].
Defined.

Lemma promote_rollover_witness :
  ((0 <= 12500)%Q /\ 0 < 1000
   /\ historical_head_roots
        (@mkStore Z _ _ ∅ None (Some [(11000, 3)]) ∅) = Some [(11000, 3)]
   /\ last [(11000, 3)] = Some (11000, 3)
   /\ 11000 <= last_finished 1000 12500
   /\ now 12500 - 4 * 1000 <= 11000) /\
  historical_head_roots
    (append_current_root_hash_to_historical 1000 4 12500
       (mkChainHeadDB 7 ∅ ∅)
       (@mkStore Z _ _ ∅ None (Some [(11000, 3)]) ∅)).1
  = Some [(11000, 3); (12000, 3); (13000, 7)].
Proof.
  assert ((0 <= 12500)%Q) as Ht by discriminate.
  assert (0 < 1000) as HW by lia.
  assert (11000 <= last_finished 1000 12500) as Hle.
  { vm_compute. discriminate. }
  assert (now 12500 - 4 * 1000 <= 11000) as Hnot.
  { vm_compute. discriminate. }
  split; [repeat split; assumption |].
  exact (proj1 (proj2 (proj1 promote_rollover Z _ _ 1000 4 12500%Q
                         (mkChainHeadDB 7 ∅ ∅)
                         (mkStore ∅ None (Some [(11000, 3)]) ∅)
                         (11000, 3) [] 11000 3
                         Ht HW eq_refl eq_refl Hle Hnot))).
Defined.

(** ** Instances of the further properties *)

Lemma promote_idempotent_witness :
  ((0 <= 10000)%Q /\ 0 < 1000 /\ 0 < 4
   /\ append_current_root_hash_to_historical 1000 4 10000
        (mkChainHeadDB 7 ∅ ∅) (@mkStore Z _ _ ∅ None None ∅)
      = (mkStore ∅ None (Some [(11000, 7)]) ∅, Ok tt)) /\
  append_current_root_hash_to_historical 1000 4 10000
    (mkChainHeadDB 7 ∅ ∅) (@mkStore Z _ _ ∅ None (Some [(11000, 7)]) ∅)
  = (mkStore ∅ None (Some [(11000, 7)]) ∅, Ok tt).
Proof.
  assert ((0 <= 10000)%Q) as Ht by discriminate.
  assert (0 < 1000) as HW by lia.
  assert (0 < 4) as HHL by lia.
  assert (append_current_root_hash_to_historical 1000 4 10000
            (mkChainHeadDB 7 ∅ ∅) (@mkStore Z _ _ ∅ None None ∅)
          = (mkStore ∅ None (Some [(11000, 7)]) ∅, Ok tt)) as Hrun
    by reflexivity.
  split; [repeat split; assumption |].
  exact (promote_idempotent 1000 4 10000 (mkChainHeadDB 7 ∅ ∅)
           (mkStore ∅ None None ∅) (mkStore ∅ None (Some [(11000, 7)]) ∅)
           Ht HW HHL Hrun).
Defined.

Lemma latest_timestamp_after_promotion_witness :
  ((0 <= 12500)%Q /\ 0 < 1000 /\ 0 < 4
   /\ historical_head_roots (@mkStore Z _ _ ∅ None (Some [(11000, 3)]) ∅)
      <> Some []) /\
  exists w,
    get_latest_timestamp
      (append_current_root_hash_to_historical 1000 4 12500
         (mkChainHeadDB 7 ∅ ∅)
         (@mkStore Z _ _ ∅ None (Some [(11000, 3)]) ∅)).1
    = ((append_current_root_hash_to_historical 1000 4 12500
          (mkChainHeadDB 7 ∅ ∅)
          (@mkStore Z _ _ ∅ None (Some [(11000, 3)]) ∅)).1, Ok w) /\
    last_finished 1000 12500 < w.
Proof.
  assert ((0 <= 12500)%Q) as Ht by discriminate.
  assert (0 < 1000) as HW by lia.
  assert (0 < 4) as HHL by lia.
  assert (historical_head_roots (@mkStore Z _ _ ∅ None (Some [(11000, 3)]) ∅)
          <> Some []) as Hne by discriminate.
  split; [repeat split; assumption |].
  destruct (proj2 (latest_timestamp_after_promotion 1000 4 12500
                     (mkChainHeadDB 7 ∅ ∅)
                     (mkStore ∅ None (Some [(11000, 3)]) ∅) Ht HW HHL Hne))
    as (w & Hget & Hw & _).
  exists w. split; [exact Hget | exact Hw].
Defined.

Lemma promote_deletes_dropped_windows_witness :
  let ring := [(8000, 1); (9000, 1); (10000, 1); (11000, 1)] in
  let chrono : gmap Z (list (Z * bytes)) :=
    {[7000 := [(7100, hash_H1)]; 8000 := [(8100, hash_H1)];
      9000 := [(9100, hash_H2)]; 10000 := [(10100, hash_H2)]]} in
  let db := @mkStore Z _ _ ∅ None (Some ring) chrono in
  let call :=
    append_current_root_hash_to_historical 1000 4 12500
      (mkChainHeadDB 7 ∅ ∅) db in
  ((0 <= 12500)%Q /\ 0 < 1000 /\ 0 < 4 /\ now 12500 + 1000 <= UINT_256_MAX
   /\ (forall ring0,
         historical_head_roots db = Some ring0 ->
         exists first rest, ring0 = first :: rest /\
           0 <= first.1 /\ first.1 mod 1000 = 0 /\
           Forall (fun e => e.1 <= UINT_256_MAX) ring0)) /\
  call.2 = Ok tt /\
  historical_head_roots call.1
  = Some [(10000, 1); (11000, 1); (12000, 1); (13000, 7)] /\
  chronological_windows call.1 !! 8000 = None /\
  chronological_windows call.1 !! 9000 = None /\
  chronological_windows call.1 !! 10000 = Some [(10100, hash_H2)] /\
  chronological_windows call.1 !! 7000 = Some [(7100, hash_H1)].
Proof.
  intros ring chrono db call.
  assert ((0 <= 12500)%Q) as Ht by discriminate.
  assert (0 < 1000) as HW by lia.
  assert (0 < 4) as HHL by lia.
  assert (now 12500 + 1000 <= UINT_256_MAX) as Hmax
    by (vm_compute; discriminate).
  assert (forall ring0,
            historical_head_roots db = Some ring0 ->
            exists first rest, ring0 = first :: rest /\
              0 <= first.1 /\ first.1 mod 1000 = 0 /\
              Forall (fun e => e.1 <= UINT_256_MAX) ring0) as Hwf.
  { intros ring0 [= <-]. exists (8000, 1), [(9000, 1); (10000, 1); (11000, 1)].
    split; [reflexivity |]. split; [simpl; lia |]. split; [reflexivity |].
    repeat (apply Forall_cons; split; [vm_compute; discriminate |]).
    constructor. }
  split; [exact (conj Ht (conj HW (conj HHL (conj Hmax Hwf)))) |].
  destruct (promote_deletes_dropped_windows 1000 4 12500
              (mkChainHeadDB 7 ∅ ∅) db Ht HW HHL Hmax Hwf)
    as (Hok & _ & _ & ring' & Hring' & Hdeleted & Hkept).
  fold call in Hok, Hring', Hdeleted, Hkept.
  assert (historical_head_roots call.1
          = Some [(10000, 1); (11000, 1); (12000, 1); (13000, 7)]) as Hsaved
    by (vm_compute; reflexivity).
  rewrite Hsaved in Hring'. injection Hring' as <-.
  split; [exact Hok |]. split; [exact Hsaved |].
  split; [| split; [| split]].
  - apply (Hdeleted (8000, 1) [(9000, 1); (10000, 1); (11000, 1)] (10000, 1));
      [reflexivity | reflexivity | simpl; lia | reflexivity].
  - apply (Hdeleted (8000, 1) [(9000, 1); (10000, 1); (11000, 1)] (10000, 1));
      [reflexivity | reflexivity | simpl; lia | reflexivity].
  - rewrite Hkept; [reflexivity |].
    intros first rest first' [= <- <-] [= <-]. simpl. lia.
  - rewrite Hkept; [reflexivity |].
    intros first rest first' [= <- <-] [= <-]. simpl. lia.
Defined.

Lemma promote_keeps_invariant_within_retention_witness :
  ((0 <= 12500)%Q /\ 0 < 1000 /\ 0 < 4
   /\ (forall ring,
         historical_head_roots (@mkStore Z _ _ ∅ None (Some [(11000, 3)]) ∅)
         = Some ring ->
         ring_invariant 1000 4 ring = true /\
         exists e, last ring = Some e /\ e.1 mod 1000 = 0 /\
           (e.1 <= last_finished 1000 12500 -> now 12500 - 4 * 1000 <= e.1)))
  /\
  exists ring',
    historical_head_roots
      (append_current_root_hash_to_historical 1000 4 12500
         (mkChainHeadDB 7 ∅ ∅)
         (@mkStore Z _ _ ∅ None (Some [(11000, 3)]) ∅)).1 = Some ring' /\
    ring_invariant 1000 4 ring' = true.
Proof.
  assert ((0 <= 12500)%Q) as Ht by discriminate.
  assert (0 < 1000) as HW by lia.
  assert (0 < 4) as HHL by lia.
  assert (forall ring,
            historical_head_roots
              (@mkStore Z _ _ ∅ None (Some [(11000, 3)]) ∅) = Some ring ->
            ring_invariant 1000 4 ring = true /\
            exists e, last ring = Some e /\ e.1 mod 1000 = 0 /\
              (e.1 <= last_finished 1000 12500 ->
               now 12500 - 4 * 1000 <= e.1)) as Hwf.
  { intros ring [= <-]. split; [reflexivity |].
    exists (11000, 3). split; [reflexivity |]. split; [reflexivity |].
    intros _. vm_compute. discriminate. }
  split; [exact (conj Ht (conj HW (conj HHL Hwf))) |].
  exact (promote_keeps_invariant_within_retention 1000 4 12500
           (mkChainHeadDB 7 ∅ ∅) (mkStore ∅ None (Some [(11000, 3)]) ∅)
           Ht HW HHL Hwf).
Defined.

Lemma promote_offline_general_witness :
  ((0 <= 10000)%Q /\ 0 < 1000 /\ 0 < 4
   /\ historical_head_roots (@mkStore Z _ _ ∅ None (Some [(1000, 3)]) ∅)
      = Some [(1000, 3)]
   /\ last [(1000, 3)] = Some (1000, 3)
   /\ 1000 < now 10000 - 4 * 1000) /\
  historical_head_roots
    (append_current_root_hash_to_historical 1000 4 10000
       (mkChainHeadDB 3 ∅ ∅)
       (@mkStore Z _ _ ∅ None (Some [(1000, 3)]) ∅)).1
  = Some [(6000, 3); (7000, 3); (8000, 3); (9000, 3); (11000, 3)].
Proof.
  assert ((0 <= 10000)%Q) as Ht by discriminate.
  assert (0 < 1000) as HW by lia.
  assert (0 < 4) as HHL by lia.
  assert (1000 < now 10000 - 4 * 1000) as Hold by (vm_compute; reflexivity).
  split; [repeat split; assumption |].
  exact (proj1 (promote_offline_general 1000 4 10000 (mkChainHeadDB 3 ∅ ∅)
                  (mkStore ∅ None (Some [(1000, 3)]) ∅) (1000, 3) [] 1000 3
                  Ht HW HHL eq_refl eq_refl Hold)).
Defined.

Lemma late_block_update_is_promotion_witness :
  ((0 <= 10000)%Q /\ 0 < 1000 /\ 0 < 4 /\ length address_A = 20%nat
   /\ 0 <= 9000 <= UINT_256_MAX /\ 9000 <= now 10000
   /\ 9000 mod 1000 = 0) /\
  add_block_hash_to_timestamp id 1000 4 10000
    (new_ChainHeadDB (BLANK_HASH id)) address_A hash_H1 9000
    (@mkStore (gmap bytes bytes) _ _ ∅ None None ∅)
  = match append_current_root_hash_to_historical 1000 4 10000
            (new_ChainHeadDB (BLANK_HASH id))
            (@mkStore (gmap bytes bytes) _ _ ∅ None None ∅) with
    | (db1, Ok _) => (db1, Raise TypeError)
    | (db1, Raise e) => (db1, Raise e)
    end.
Proof.
  assert ((0 <= 10000)%Q) as Ht by discriminate.
  assert (0 < 1000) as HW by lia.
  assert (0 < 4) as HHL by lia.
  assert (0 <= 9000 <= UINT_256_MAX) as Hu
    by (split; [lia | vm_compute; discriminate]).
  assert (9000 <= now 10000) as Hnow by (vm_compute; discriminate).
  assert (9000 mod 1000 = 0) as Hmod by reflexivity.
  split; [exact (conj Ht (conj HW (conj HHL (conj eq_refl (conj Hu (conj Hnow Hmod)))))) |].
  exact (late_block_update_is_promotion id 1000 4 10000
           (new_ChainHeadDB (BLANK_HASH id)) address_A hash_H1 9000
           (mkStore ∅ None None ∅) Ht HW HHL eq_refl Hu Hnow Hmod).
Defined.

Lemma chronological_index_invariant_witness :
  (0 < 1000 /\ 0 <= 11100 /\ 11100 + 1000 <= 2 ^ 53
   /\ chronological_index_wf 1000
        (@mkStore Z _ _ ∅ None None {[11000 := [(11250, hash_H1)]]})) /\
  (add_block_hash_to_chronological_window 1000 4 10000
     (mkChainHeadDB 7 ∅ ∅) hash_H2 11100
     (@mkStore Z _ _ ∅ None None {[11000 := [(11250, hash_H1)]]})).2 = Ok tt /\
  chronological_index_wf 1000
    (add_block_hash_to_chronological_window 1000 4 10000
       (mkChainHeadDB 7 ∅ ∅) hash_H2 11100
       (@mkStore Z _ _ ∅ None None {[11000 := [(11250, hash_H1)]]})).1.
Proof.
  assert (0 < 1000) as HW by lia.
  assert (0 <= 11100) as Hts by lia.
  assert (11100 + 1000 <= 2 ^ 53) as Hsmall by lia.
  assert (chronological_index_wf 1000
            (@mkStore Z _ _ ∅ None None {[11000 := [(11250, hash_H1)]]}))
    as Hwf.
  { apply map_Forall_singleton. split; [reflexivity |]. split.
    - unfold sorted_by_timestamp. repeat constructor.
    - apply Forall_singleton. simpl. lia. }
  split; [exact (conj HW (conj Hts (conj Hsmall Hwf))) |].
  exact (chronological_index_invariant 1000 4 10000
           (mkChainHeadDB 7 ∅ ∅) hash_H2 11100
           (mkStore ∅ None None {[11000 := [(11250, hash_H1)]]})
           HW Hts Hsmall Hwf).
Defined.

Lemma chronological_window_round_trip_witness :
  (0 < 1000 /\ 0 <= 11000 <= UINT_256_MAX /\ 11000 mod 1000 = 0) /\
  load_chronological_block_window 1000 11000
    (save_chronological_block_window 1000 [(11250, hash_H1)] 11000
       (@mkStore Z _ _ ∅ None None ∅)).1
  = ((save_chronological_block_window 1000 [(11250, hash_H1)] 11000
        (@mkStore Z _ _ ∅ None None ∅)).1,
     Ok (Some [(11250, hash_H1)])).
Proof.
  assert (0 < 1000) as HW by lia.
  assert (0 <= 11000 <= UINT_256_MAX) as Hu
    by (split; [lia | vm_compute; discriminate]).
  assert (11000 mod 1000 = 0) as Hmod by reflexivity.
  split; [exact (conj HW (conj Hu Hmod)) |].
  exact (proj1 (proj2 (chronological_window_round_trip 1000
                         [(11250, hash_H1)] 11000 (mkStore ∅ None None ∅)
                         HW Hu Hmod))).
Defined.

Lemma chronological_window_rejects_witness :
  (0 < 1000
   /\ ~ (0 <= 11001 <= UINT_256_MAX /\ 11001 mod 1000 = 0)) /\
  load_chronological_block_window 1000 11001
    (@mkStore Z _ _ ∅ None None ∅)
  = (mkStore ∅ None None ∅, Raise InvalidHeadRootTimestamp).
Proof.
  assert (0 < 1000) as HW by lia.
  assert (~ (0 <= 11001 <= UINT_256_MAX /\ 11001 mod 1000 = 0)) as Hbad.
  { intros [_ Hmod]. discriminate Hmod. }
  split; [split; assumption |].
  exact (proj1 (proj2 (chronological_window_rejects 1000 [] 11001
                         (mkStore ∅ None None ∅) HW Hbad))).
Defined.

Lemma get_at_timestamp_on_dense_ring_witness :
  (0 < 1000 /\ length address_A = 20%nat /\ 0 <= 9000 <= UINT_256_MAX
   /\ 9000 <= now 10000 /\ 9000 mod 1000 = 0
   /\ windows_spaced 1000
        [(9000, BLANK_HASH id); (10000, BLANK_HASH id)] = true) /\
  exists e,
    [(9000, BLANK_HASH id); (10000, BLANK_HASH id)]
      !! Z.to_nat ((9000 - 9000) / 1000) = Some e /\
    e.1 = 9000 /\
    get_chain_head_hash_at_timestamp id 1000 10000
      (new_ChainHeadDB (BLANK_HASH id)) address_A 9000
      (@mkStore (gmap bytes bytes) _ _ ∅ None
         (Some [(9000, BLANK_HASH id); (10000, BLANK_HASH id)]) ∅)
    = head_in_snapshot id (e.2) address_A
        (mkStore ∅ None
           (Some [(9000, BLANK_HASH id); (10000, BLANK_HASH id)]) ∅).
Proof.
  assert (0 < 1000) as HW by lia.
  assert (0 <= 9000 <= UINT_256_MAX) as Hu
    by (split; [lia | vm_compute; discriminate]).
  assert (9000 <= now 10000) as Hnow by (vm_compute; discriminate).
  assert (9000 mod 1000 = 0) as Hmod by reflexivity.
  split; [exact (conj HW (conj eq_refl (conj Hu (conj Hnow (conj Hmod eq_refl))))) |].
  exact (proj1 (get_at_timestamp_on_dense_ring id 1000 10000
                  (new_ChainHeadDB (BLANK_HASH id)) address_A 9000
                  (mkStore ∅ None
                     (Some [(9000, BLANK_HASH id); (10000, BLANK_HASH id)]) ∅)
                  (9000, BLANK_HASH id) (10000, BLANK_HASH id)
                  [(10000, BLANK_HASH id)]
                  HW eq_refl Hu Hnow Hmod eq_refl eq_refl eq_refl eq_refl
                  ltac:(simpl; lia))
           ltac:(simpl; lia)).
Defined.

Lemma first_promotion_answers_nothing_witness :
  ((0 <= 10000)%Q /\ 0 < 1000
   /\ historical_head_roots (@mkStore (gmap bytes bytes) _ _ ∅ None None ∅)
      = None
   /\ length address_A = 20%nat /\ 0 <= 9000 <= UINT_256_MAX
   /\ 9000 <= now 10000 /\ 9000 mod 1000 = 0) /\
  get_chain_head_hash_at_timestamp id 1000 10000
    (new_ChainHeadDB (BLANK_HASH id)) address_A 9000
    (append_current_root_hash_to_historical 1000 4 10000
       (new_ChainHeadDB (BLANK_HASH id))
       (@mkStore (gmap bytes bytes) _ _ ∅ None None ∅)).1
  = ((append_current_root_hash_to_historical 1000 4 10000
        (new_ChainHeadDB (BLANK_HASH id))
        (@mkStore (gmap bytes bytes) _ _ ∅ None None ∅)).1, Ok None).
Proof.
  assert ((0 <= 10000)%Q) as Ht by discriminate.
  assert (0 < 1000) as HW by lia.
  assert (0 <= 9000 <= UINT_256_MAX) as Hu
    by (split; [lia | vm_compute; discriminate]).
  assert (9000 <= now 10000) as Hnow by (vm_compute; discriminate).
  assert (9000 mod 1000 = 0) as Hmod by reflexivity.
  split; [exact (conj Ht (conj HW (conj eq_refl (conj eq_refl (conj Hu (conj Hnow Hmod)))))) |].
  exact (proj2 (proj2 (first_promotion_answers_nothing id 1000 4 10000
                         (new_ChainHeadDB (BLANK_HASH id))
                         (new_ChainHeadDB (BLANK_HASH id))
                         (mkStore ∅ None None ∅) address_A 9000
                         Ht HW eq_refl eq_refl Hu Hnow Hmod))).
Defined.
